(** * guiqwt.qthelpers: ready-to-use image open/save dialogs

    A shallow embedding of [guiqwt/qthelpers.py].  The three functions of
    the module are sequential glue between a GUI toolkit, [os.path], numpy
    and [guiqwt.io]; they are modelled as computations in a state-and-
    exception monad over a world that holds the three [sys] standard
    streams, the state of the collaborators and the chronological record
    of every call made to them. *)

From Stdlib Require Import ZArith Ascii String DecimalString.
From stdpp Require Import base strings list gmap fin_maps.

(** ** Python values used by the module *)

(** Exception classes that matter to the handlers of the module:
    [except TypeError] and [except Exception].  [KeyboardInterrupt] and
    [SystemExit] derive from [BaseException] only. *)
Inductive ExcClass :=
  | TypeError | NameError | ValueError | OSError | RuntimeError
  | KeyboardInterrupt | SystemExit.

Record Exn := mkExn { exc_class : ExcClass; exc_msg : string }.

Definition isinstance_TypeError (e : Exn) : bool :=
  match exc_class e with TypeError => true | _ => false end.

Definition isinstance_Exception (e : Exn) : bool :=
  match exc_class e with
  | KeyboardInterrupt | SystemExit => false
  | _ => true
  end.

Inductive Result (A : Type) :=
  | Ok (a : A)
  | Raise (e : Exn).
Arguments Ok {A} a.
Arguments Raise {A} e.

(** numpy dtypes, with the byte order resolved: ['<'], ['>'] or ['|']. *)
Inductive ByteOrder := LittleEndian | BigEndian | NotApplicable.

Record dtype := mkDtype { byteorder : ByteOrder; kind : ascii; itemsize : N }.

Definition byteorder_char (b : ByteOrder) : ascii :=
  match b with
  | LittleEndian => "<"%char
  | BigEndian => ">"%char
  | NotApplicable => "|"%char
  end.

Definition digits (n : N) : string := NilEmpty.string_of_uint (N.to_uint n).

(** [dtype.str] *)
Definition dtype_str (d : dtype) : string :=
  String (byteorder_char (byteorder d)) (String (kind d) (digits (itemsize d))).

(** [dtype.newbyteorder()] with its default argument, which swaps. *)
Definition newbyteorder (d : dtype) : dtype :=
  match byteorder d with
  | LittleEndian => mkDtype BigEndian (kind d) (itemsize d)
  | BigEndian => mkDtype LittleEndian (kind d) (itemsize d)
  | NotApplicable => d
  end.

(** An image pixel array: only its dtype is inspected by the module. *)
Record ndarray := mkArray { arr_dtype : dtype; pixels : list Z }.

(** Widgets and pydicom datasets are opaque handles; [None] is Python's
    [None]. *)
Definition Widget := nat.
Definition Template := nat.

(** Values stored in the keyword and parameter dictionaries. *)
Inductive PyVal :=
  | VBool (b : bool)
  | VInt (z : Z)
  | VStr (s : string)
  | VDtype (d : dtype)
  | VTemplate (t : option Template).

Global Instance ByteOrder_eq_dec : EqDecision ByteOrder.
Proof. solve_decision. Defined.
Global Instance dtype_eq_dec : EqDecision dtype.
Proof. solve_decision. Defined.
Global Instance PyVal_eq_dec : EqDecision PyVal.
Proof. solve_decision. Defined.

(** The three standard streams of [sys]; a stream is a file handle or
    [None]. *)
Record Streams := mkStreams {
  sys_stdin : option nat;
  sys_stdout : option nat;
  sys_stderr : option nat
}.

(** ** The raw-parameter forms

    [ChoiceItem]s range over the two tuples [dtype_list] and
    [offset_list] of the source. *)
Inductive DtypeChoice := int16 | int32 | uint16 | uint32.
Inductive OffsetMode := from_end | from_end_4k | auto.

Definition dtype_name (c : DtypeChoice) : string :=
  match c with
  | int16 => "int16" | int32 => "int32"
  | uint16 => "uint16" | uint32 => "uint32"
  end.

Definition mode_name (m : OffsetMode) : string :=
  match m with
  | from_end => "from_end" | from_end_4k => "from_end_4k" | auto => "auto"
  end.

(** class OpenParam(DataSet) *)
Record OpenParam := mkOpenParam {
  p_dtype : DtypeChoice;
  p_mode : OffsetMode;
  p_endian_switch : bool;
  p_manual_switch : bool;
  p_m_offset : Z
}.

(** class nOpenParam(DataSet): the same items and [one4all]. *)
Record nOpenParam := mknOpenParam {
  n_items :> OpenParam;
  p_one4all : bool
}.

Inductive FormClass := OpenParamForm | nOpenParamForm.

(** ** Calls to the collaborators

    Every call that leaves the module is recorded with its arguments and
    with what it answered. *)
Inductive Event :=
  | EGetSaveFileName (parent : option Widget) (caption basedir filters : string)
      (r : Result (string * string))
  | EGetOpenFileName (parent : option Widget) (caption basedir filters : string)
      (r : Result (string * string))
  | EGetOpenFileNames (parent : option Widget) (caption basedir filters : string)
      (r : Result (list string * string))
  | EIsFile (path : string) (r : bool)
  | EEdit (c : FormClass) (title : string) (r : option nOpenParam)
  | EImwrite (filename : string) (data : ndarray) (kwargs : gmap string PyVal)
      (r : Result unit)
  | EImread (filename : string) (to_grayscale : bool)
      (params : option (gmap string PyVal)) (r : Result ndarray)
  | EPrintExc (e : Exn)
  | ECritical (parent : option Widget) (title text : string)
  | EYield (filename : string) (data : ndarray).

(** A call together with the standard streams as they were bound when it
    was made. *)
Record Obs := mkObs { seen : Streams; call : Event }.

(** ** String formatting

    [template % arg] for a single [str] argument.  The fragment covers
    the directives [%s] and [%%]; any other directive is outside the
    fragment and is reported as an error, as are the two arity errors of
    Python. *)
Definition fmt_not_all : Exn :=
  mkExn TypeError "not all arguments converted during string formatting".
Definition fmt_not_enough : Exn :=
  mkExn TypeError "not enough arguments for format string".
Definition fmt_unsupported : Exn :=
  mkExn ValueError "unsupported format character".

Definition map_result {A B} (f : A → B) (r : Result A) : Result B :=
  match r with Ok a => Ok (f a) | Raise e => Raise e end.

Fixpoint pct_from (t : string) (arg : option string) : Result string :=
  match t with
  | EmptyString =>
      match arg with Some _ => Raise fmt_not_all | None => Ok "" end
  | String c t1 =>
      if Ascii.eqb c "%" then
        match t1 with
        | String d t2 =>
            if Ascii.eqb d "s" then
              match arg with
              | Some a => map_result (String.append a) (pct_from t2 None)
              | None => Raise fmt_not_enough
              end
            else if Ascii.eqb d "%" then
              map_result (String "%") (pct_from t2 arg)
            else Raise fmt_unsupported
        | EmptyString => Raise fmt_unsupported
        end
      else map_result (String c) (pct_from t1 arg)
  end.

Definition pct (template arg : string) : Result string :=
  pct_from template (Some arg).

(** [str.lower()].  Only the letters A-Z are mapped; on the comparison
    with [".dcm"] made by the module this agrees with Python, no other
    character having [d], [c] or [m] as its lower case. *)
Definition lower_char (c : ascii) : ascii :=
  let n := nat_of_ascii c in
  if (65 <=? n)%nat && (n <=? 90)%nat then ascii_of_nat (n + 32) else c.

Fixpoint lower (s : string) : string :=
  match s with
  | EmptyString => EmptyString
  | String c s' => String (lower_char c) (lower s')
  end.

(** ** The collaborators

    Everything the module calls but does not define: the message
    catalogue [_] of [guiqwt.config], [os.path], the file dialogs of
    [qtpy.compat], [QMessageBox], the guidata forms, [guiqwt.io] and the
    byte order of the machine numpy runs on.  [Env] is their state.  The
    file dialogs are the calls around which the module saves and restores
    the standard streams, so they alone may rebind them. *)
Class Host (Env : Type) := {
  big_endian : bool;
  tr : string → string;
  splitext : string → string * string;
  basename : string → string;
  get_filters : string → option dtype → option Template → string;
  isfile : string → Env → bool;
  getsavefilename : option Widget → string → string → string →
    Streams → Env → Result (string * string) * Streams * Env;
  getopenfilename : option Widget → string → string → string →
    Streams → Env → Result (string * string) * Streams * Env;
  getopenfilenames : option Widget → string → string → string →
    Streams → Env → Result (list string * string) * Streams * Env;
  edit_OpenParam : string → Env → option OpenParam * Env;
  edit_nOpenParam : string → Env → option nOpenParam * Env;
  imwrite : string → ndarray → gmap string PyVal → Env → Result unit * Env;
  imread : string → bool → option (gmap string PyVal) → Env →
    Result ndarray * Env;
  print_exc : Exn → Env → Env;
  critical : option Widget → string → string → Env → Env
}.

(** ** The world and the monad

    A computation takes the world and gives back either a value or a
    raised exception, together with the world as it then is. *)
Record World (Env : Type) := mkWorld {
  streams : Streams;
  env : Env;
  trace : list Obs
}.
Arguments mkWorld {Env} _ _ _.
Arguments streams {Env} _.
Arguments env {Env} _.
Arguments trace {Env} _.

Definition M (W A : Type) : Type := W → Result A * W.

Definition ret {W A} (a : A) : M W A := λ w, (Ok a, w).

Definition bind {W A B} (m : M W A) (k : A → M W B) : M W B :=
  λ w, match m w with
       | (Ok a, w1) => k a w1
       | (Raise e, w1) => (Raise e, w1)
       end.

Definition raise {W A} (e : Exn) : M W A := λ w, (Raise e, w).

Definition lift {W A} (r : Result A) : M W A := λ w, (r, w).

(** [try: body  except C as msg: handler] where [C] is given by its
    [isinstance] test; an exception outside [C] passes through. *)
Definition try_except {W A} (body : M W A) (catches : Exn → bool)
    (handler : Exn → M W A) : M W A :=
  λ w, match body w with
       | (Raise e, w1) => if catches e then handler e w1 else (Raise e, w1)
       | r => r
       end.

Notation "x <- m ;; k" := (bind m (λ x, k))
  (at level 100, m at next level, right associativity,
   format "'[v' x  <-  m  ;;  '/' k ']'").
Notation "m ;;; k" := (bind m (λ _, k))
  (at level 100, right associativity).

Section Model.
Context {Env : Type} `{Host Env}.

Local Abbreviation IO := (M (World Env)).

(** ** numpy dtype construction *)
Definition native_order : ByteOrder :=
  if big_endian then BigEndian else LittleEndian.

Definition unknown_dtype (name : string) : Exn :=
  mkExn TypeError ("data type '" +:+ name +:+ "' not understood").

(** [np.dtype('uint8')] and [np.dtype('uint16')] *)
Definition np_uint8 : dtype := mkDtype NotApplicable "u" 1.
Definition np_uint16 : dtype := mkDtype native_order "u" 2.

(** [np.dtype(name)] for the names the module uses. *)
Definition np_dtype (name : string) : Result dtype :=
  if String.eqb name "uint8" then Ok np_uint8
  else if String.eqb name "uint16" then Ok np_uint16
  else if String.eqb name "uint32" then Ok (mkDtype native_order "u" 4)
  else if String.eqb name "int16" then Ok (mkDtype native_order "i" 2)
  else if String.eqb name "int32" then Ok (mkDtype native_order "i" 4)
  else Raise (unknown_dtype name).

Definition get_streams : IO Streams := λ w, (Ok (streams w), w).

Definition set_streams (s : Streams) : IO unit :=
  λ w, (Ok tt, mkWorld s (env w) (trace w)).

(** [sys.stdout = v] *)
Definition set_stdout (v : option nat) : IO unit :=
  λ w, (Ok tt,
        mkWorld (mkStreams (sys_stdin (streams w)) v (sys_stderr (streams w)))
                (env w) (trace w)).

Definition record (w : World Env) (e : Event) : list Obs :=
  trace w ++ [mkObs (streams w) e].

(** ** Calls into the collaborators, each leaving its record *)
Definition call_getsavefilename (parent : option Widget)
    (caption basedir filters : string) : IO (string * string) :=
  λ w, let '(r, s, v) :=
         getsavefilename parent caption basedir filters (streams w) (env w) in
       (r, mkWorld s v
             (record w (EGetSaveFileName parent caption basedir filters r))).

Definition call_getopenfilename (parent : option Widget)
    (caption basedir filters : string) : IO (string * string) :=
  λ w, let '(r, s, v) :=
         getopenfilename parent caption basedir filters (streams w) (env w) in
       (r, mkWorld s v
             (record w (EGetOpenFileName parent caption basedir filters r))).

Definition call_getopenfilenames (parent : option Widget)
    (caption basedir filters : string) : IO (list string * string) :=
  λ w, let '(r, s, v) :=
         getopenfilenames parent caption basedir filters (streams w) (env w) in
       (r, mkWorld s v
             (record w (EGetOpenFileNames parent caption basedir filters r))).

Definition call_isfile (path : string) : IO bool :=
  λ w, let r := isfile path (env w) in
       (Ok r, mkWorld (streams w) (env w) (record w (EIsFile path r))).

(** [param = OpenParam(title); param.edit()]: [None] when the form is
    cancelled, the edited items otherwise.  An [OpenParam] has no
    [one4all] item; the record kept in the trace pads it with [False]. *)
Definition call_edit_OpenParam (title : string) : IO (option OpenParam) :=
  λ w, let '(r, v) := edit_OpenParam title (env w) in
       (Ok r, mkWorld (streams w) v
                (record w (EEdit OpenParamForm title
                             ((λ p, mknOpenParam p false) <$> r)))).

Definition call_edit_nOpenParam (title : string) : IO (option nOpenParam) :=
  λ w, let '(r, v) := edit_nOpenParam title (env w) in
       (Ok r, mkWorld (streams w) v (record w (EEdit nOpenParamForm title r))).

Definition call_imwrite (filename : string) (data : ndarray)
    (kwargs : gmap string PyVal) : IO unit :=
  λ w, let '(r, v) := imwrite filename data kwargs (env w) in
       (r, mkWorld (streams w) v (record w (EImwrite filename data kwargs r))).

Definition call_imread (filename : string) (to_grayscale : bool)
    (params : option (gmap string PyVal)) : IO ndarray :=
  λ w, let '(r, v) := imread filename to_grayscale params (env w) in
       (r, mkWorld (streams w) v
             (record w (EImread filename to_grayscale params r))).

Definition call_print_exc (e : Exn) : IO unit :=
  λ w, (Ok tt, mkWorld (streams w) (print_exc e (env w))
                 (record w (EPrintExc e))).

Definition call_critical (parent : option Widget) (title text : string)
    : IO unit :=
  λ w, (Ok tt, mkWorld (streams w) (critical parent title text (env w))
                 (record w (ECritical parent title text))).

Definition emit_yield (filename : string) (data : ndarray) : IO unit :=
  λ w, (Ok tt, mkWorld (streams w) (env w) (record w (EYield filename data))).

(** [a or b] on conditions that may raise: [b] is evaluated only when
    [a] is false. *)
Definition por (a b : IO bool) : IO bool :=
  x <- a ;; if x then ret true else b.

(** Reading a name that the function never assigns and that neither the
    module nor the builtins define. *)
Definition unbound_name {A} (name : string) : IO A :=
  raise (mkExn NameError ("name '" +:+ name +:+ "' is not defined")).

(** The error box shared by the three handlers:
    [QMessageBox.critical(parent, _("Error") if app_name is None else
    app_name, (_(template) % osp.basename(filename)) + "\n" + str(msg))],
    after [traceback.print_exc()]. *)
Definition error_title (app_name : option string) : string :=
  match app_name with None => tr "Error" | Some a => a end.

Definition newline : string := String (ascii_of_nat 10) EmptyString.

Definition report (parent : option Widget) (app_name : option string)
    (template filename : string) (msg : Exn) : IO unit :=
  call_print_exc msg ;;;
  head <- lift (pct (tr template) (basename filename)) ;;
  call_critical parent (error_title app_name)
    (head +:+ newline +:+ exc_msg msg).


Definition error_text (head : string) (msg : Exn) : string :=
  head +:+ newline +:+ exc_msg msg.

(** The two records left by a handler whose template formats. *)
Definition failure_records (s : Streams) (parent : option Widget)
    (app_name : option string) (head : string) (msg : Exn) : list Obs :=
  [mkObs s (EPrintExc msg);
   mkObs s (ECritical parent (error_title app_name) (error_text head msg))].

(** ** exec_image_save_dialog *)

(** [ext == s], in a function where [ext] is never bound. *)
Definition ext_is (s : string) : IO bool :=
  ext <- unbound_name "ext" ;; ret (String.eqb ext s).

(** Lines 76-78: the keyword dictionary. *)
Definition save_kwargs (filename : string) (template : option Template)
    : gmap string PyVal :=
  if String.eqb (lower (snd (splitext filename))) ".dcm"
  then <["template" := VTemplate template]> ∅
  else ∅.

(** The exception raised by reading [ext]. *)
Definition name_error_ext : Exn :=
  mkExn NameError "name 'ext' is not defined".

(** Lines 80-89: the body of the [try]. *)
Definition write_attempt (filename : string) (data : ndarray)
    (kwargs : gmap string PyVal) (convert : bool) : IO (option string) :=
  direct <- por (ret (negb convert))
             (por (ext_is ".txt") (por (ext_is ".csv") (por (ext_is ".asc")
               (por (ext_is ".dat") (ext_is ".npy"))))) ;;
  (if direct : bool then call_imwrite filename data kwargs
   else
     wide <- por (ext_is ".tif") (por (ext_is ".tiff") (ext_is ".dcm")) ;;
     let dt := if wide : bool then np_uint16 else np_uint8 in
     call_imwrite filename data
       (<["max_range" := VBool true]> (<["dtype" := VDtype dt]> kwargs))) ;;;
  ret (Some filename).

Definition is_float_le (data : ndarray) : bool :=
  String.eqb (dtype_str (arr_dtype data)) "<f8"
  || String.eqb (dtype_str (arr_dtype data)) "<f4".

Definition nonempty (s : string) : bool := negb (String.eqb s "").

(** The world once [sys.stdout = None] has run. *)
Definition hushed (w : World Env) : World Env :=
  mkWorld (mkStreams (sys_stdin (streams w)) None (sys_stderr (streams w)))
    (env w) (trace w).

(** Lines 66-73: the dialog, tried again with an empty base directory
    when the first call raises [TypeError]; either way the streams are
    put back once the dialog has answered. *)
Definition choose_save_file (parent : option Widget)
    (basedir filters : string) (saved : Streams) : IO (string * string) :=
  try_except
    (r <- call_getsavefilename parent (tr "Save as") basedir filters ;;
     set_streams saved ;;; ret r)
    isinstance_TypeError
    (λ _,
     r <- call_getsavefilename parent (tr "Save as") "" filters ;;
     set_streams saved ;;; ret r).

Definition save_filters (data : ndarray) (template : option Template)
    : string :=
  get_filters "save" (Some (arr_dtype data)) template.

(** Lines 90-101: the handler of the write. *)
Definition write_failed (parent : option Widget) (app_name : option string)
    (filename : string) (msg : Exn) : IO (option string) :=
  report parent app_name "%s could not be written:" filename msg ;;;
  ret None.

Definition exec_image_save_dialog (parent : option Widget) (data : ndarray)
    (template : option Template) (basedir : string)
    (app_name : option string) : IO (option string) :=
  saved <- get_streams ;;
  set_stdout None ;;;
  let '(convert, dt) :=
    if is_float_le data then (true, np_uint8) else (false, arr_dtype data) in
  chosen <-
    choose_save_file parent basedir (save_filters data template) saved ;;
  let '(filename, _filter) := chosen in
  if nonempty filename then
    let kwargs := save_kwargs filename template in
    try_except (write_attempt filename data kwargs convert)
      isinstance_Exception
      (write_failed parent app_name filename)
  else ret None.

(** ** exec_image_open_dialog *)
(** Lines 126-135 and 254-265: the handler of a read. *)
Definition open_failed {A} (parent : option Widget)
    (app_name : option string) (filename : string) (msg : Exn)
    : IO (option A) :=
  report parent app_name "%s could not be opened:" filename msg ;;;
  ret None.

Definition exec_image_open_dialog (parent : option Widget) (basedir : string)
    (app_name : option string) (to_grayscale : bool) (dtype : option dtype)
    : IO (option (string * ndarray)) :=
  saved <- get_streams ;;
  set_stdout None ;;;
  chosen <-
    call_getopenfilename parent (tr "Open") basedir
      (get_filters "load" dtype None) ;;
  let '(filename, _filter) := chosen in
  set_streams saved ;;;
  try_except
    (data <- call_imread filename to_grayscale None ;;
     ret (Some (filename, data)))
    isinstance_Exception
    (open_failed parent app_name filename).

(** ** exec_images_open_dialog *)

(** Lines 161: the extensions that announce a raw image. *)
Definition is_raw_ext (ext : string) : bool :=
  String.eqb ext ".bin" || String.eqb ext ".raw"
  || String.eqb ext ".img" || String.eqb ext ".imd".

(** Lines 221-228 and 245-252: the dictionary built from an accepted
    form. *)
Definition raw_params (param : OpenParam) : Result (gmap string PyVal) :=
  let offset :=
    if p_manual_switch param then VInt (p_m_offset param)
    else VStr (mode_name (p_mode param)) in
  match np_dtype (dtype_name (p_dtype param)) with
  | Ok dtype =>
      let dtype :=
        if negb (p_endian_switch param) then newbyteorder dtype else dtype in
      Ok (<["offset" := offset]> (<["dtype" := VDtype dtype]> ∅))
  | Raise e => Raise e
  end.

(** The locals that the loop reads and rebinds. *)
Record Locals := mkLocals {
  params : gmap string PyVal;
  one4all : bool
}.

(** Lines 159-229.  [None] stands for the [return] of line 220; the
    boolean is [RAW].  With no file selected [RAW] stays unbound and is
    never read. *)
Definition prepare (filenames : list string) : IO (option (bool * Locals)) :=
  match filenames with
  | [] => ret (Some (false, mkLocals ∅ false))
  | first :: _ =>
      let '(_base, ext) := splitext first in
      RAW <- (if is_raw_ext ext then
                found <- call_isfile (_base +:+ ".inf") ;;
                ret (if found : bool then false else true)
              else ret false) ;;
      if RAW : bool then
        if (1 <? length filenames)%nat then
          answer <- call_edit_nOpenParam (tr "Open Raw Images") ;;
          match answer with
          | None => ret None
          | Some param =>
              ps <- lift (raw_params param) ;;
              ret (Some (true, mkLocals ps (p_one4all param)))
          end
        else ret (Some (true, mkLocals ∅ false))
      else ret (Some (false, mkLocals ∅ false))
  end.

(** Lines 236-252: ask for the parameters again.  [None] stands for the
    [return] of lines 239 and 244. *)
Definition ask_params (count : nat) (st : Locals) : IO (option Locals) :=
  if (1 <? count)%nat then
    answer <- call_edit_nOpenParam (tr "Open Raw Images") ;;
    match answer with
    | None => ret None
    | Some param =>
        ps <- lift (raw_params param) ;;
        ret (Some (mkLocals ps (p_one4all param)))
    end
  else
    answer <- call_edit_OpenParam (tr "Open Raw Image") ;;
    match answer with
    | None => ret None
    | Some param =>
        ps <- lift (raw_params param) ;;
        ret (Some (mkLocals ps (one4all st)))
    end.

(** Lines 232-253: the body of the [try] for one file. *)
Definition read_one (count : nat) (RAW to_grayscale : bool) (st : Locals)
    (filename : string) : IO (option (Locals * ndarray)) :=
  let '(_base, ext) := splitext filename in
  asked <- (if RAW then
              if bool_decide (params st = ∅) || negb (one4all st)
              then ask_params count st
              else ret (Some st)
            else ret (Some st)) ;;
  match asked with
  | None => ret None
  | Some st1 =>
      data <- call_imread filename to_grayscale (Some (params st1)) ;;
      ret (Some (st1, data))
  end.

(** Lines 230-266: the loop, run until the generator is exhausted. *)
Fixpoint read_loop (parent : option Widget) (app_name : option string)
    (count : nat) (RAW to_grayscale : bool) (st : Locals)
    (rest : list string) : IO unit :=
  match rest with
  | [] => ret tt
  | filename :: rest1 =>
      got <- try_except (read_one count RAW to_grayscale st filename)
               isinstance_Exception
               (open_failed parent app_name filename) ;;
      match got with
      | None => ret tt
      | Some (st1, data) =>
          emit_yield filename data ;;;
          read_loop parent app_name count RAW to_grayscale st1 rest1
      end
  end.

(** Lines 158-266: everything after the dialog. *)
Definition read_all (parent : option Widget) (app_name : option string)
    (to_grayscale : bool) (filenames : list string) : IO unit :=
  ready <- prepare filenames ;;
  match ready with
  | None => ret tt
  | Some (RAW, st) =>
      read_loop parent app_name (length filenames) RAW to_grayscale st
        filenames
  end.

Definition exec_images_open_dialog (parent : option Widget) (basedir : string)
    (app_name : option string) (to_grayscale : bool) (dtype : option dtype)
    : IO unit :=
  saved <- get_streams ;;
  set_stdout None ;;;
  chosen <-
    call_getopenfilenames parent (tr "Open") basedir
      (get_filters "load" dtype None) ;;
  let '(filenames, _filter) := chosen in
  set_streams saved ;;;
  read_all parent app_name to_grayscale filenames.

End Model.

(** ** A scripted host

    A concrete collaborator set on which the model runs: [os.path] as
    [posixpath] has it, the identity catalogue, and dialogs, forms and
    files that answer from a script. *)
Module Posix.

(** [s.rfind(c)]: the index of the last [c], or -1. *)
Fixpoint rfind (c : ascii) (s : string) : Z :=
  match s with
  | EmptyString => (-1)%Z
  | String d s1 =>
      let r := rfind c s1 in
      if (0 <=? r)%Z then (r + 1)%Z
      else if Ascii.eqb d c then 0%Z else (-1)%Z
  end.

Definition upto (n : nat) (s : string) : string := String.substring 0 n s.
Definition from (n : nat) (s : string) : string :=
  String.substring n (String.length s - n) s.

Fixpoint all_dots (s : string) : bool :=
  match s with
  | EmptyString => true
  | String c s1 => Ascii.eqb c "." && all_dots s1
  end.

Definition basename (p : string) : string :=
  from (Z.to_nat (rfind "/" p + 1)) p.

Definition splitext (p : string) : string * string :=
  let sepIndex := rfind "/" p in
  let dotIndex := rfind "." p in
  if (sepIndex <? dotIndex)%Z then
    let stem := String.substring (Z.to_nat (sepIndex + 1))
                  (Z.to_nat (dotIndex - sepIndex - 1)) p in
    if all_dots stem then (p, "")
    else (upto (Z.to_nat dotIndex) p, from (Z.to_nat dotIndex) p)
  else (p, "").

End Posix.

Module Script.

Record Desk := mkDesk {
  picks : list (Result (list string * string));
  rebound : option Streams;
  forms : list (option nOpenParam);
  disk : list string;
  broken : list string;
  boxes : list (string * string)
}.

Definition shown (d : Desk) (title text : string) : Desk :=
  mkDesk (picks d) (rebound d) (forms d) (disk d) (broken d)
    (boxes d ++ [(title, text)]).

Definition next_pick (d : Desk) : Result (list string * string) * Desk :=
  match picks d with
  | [] => (Ok ([], ""), d)
  | r :: rest =>
      (r, mkDesk rest (rebound d) (forms d) (disk d) (broken d) (boxes d))
  end.

Definition next_form (d : Desk) : option nOpenParam * Desk :=
  match forms d with
  | [] => (None, d)
  | r :: rest =>
      (r, mkDesk (picks d) (rebound d) rest (disk d) (broken d) (boxes d))
  end.

Definition dialog_many (s : Streams) (d : Desk)
    : Result (list string * string) * Streams * Desk :=
  let '(r, d1) := next_pick d in
  (r, default s (rebound d), d1).

Definition dialog_one (s : Streams) (d : Desk)
    : Result (string * string) * Streams * Desk :=
  let '(r, s1, d1) := dialog_many s d in
  (map_result (λ a, (hd "" (fst a), snd a)) r, s1, d1).

Definition is_broken (d : Desk) (filename : string) : bool :=
  String.eqb filename "" || bool_decide (filename ∈ broken d).

Definition sample : ndarray := mkArray (mkDtype LittleEndian "u" 2) [7%Z].

Global Instance desk_host : Host Desk := {|
  big_endian := false;
  tr := λ s, s;
  splitext := Posix.splitext;
  basename := Posix.basename;
  get_filters := λ _ _ _, "Images (*.png *.tif *.dcm *.raw)";
  isfile := λ path d, bool_decide (path ∈ disk d);
  getsavefilename := λ _ _ _ _, dialog_one;
  getopenfilename := λ _ _ _ _, dialog_one;
  getopenfilenames := λ _ _ _ _, dialog_many;
  edit_OpenParam := λ _ d, let '(r, d1) := next_form d in (n_items <$> r, d1);
  edit_nOpenParam := λ _ d, next_form d;
  imwrite := λ filename _ _ d,
    (if is_broken d filename
     then Raise (mkExn OSError "cannot write") else Ok tt, d);
  imread := λ filename _ _ d,
    (if is_broken d filename
     then Raise (mkExn OSError "cannot read") else Ok sample, d);
  print_exc := λ _ d, d;
  critical := λ _ title text d, shown d title text
|}.

Definition console : Streams := mkStreams (Some 0%nat) (Some 1%nat) (Some 2%nat).

Definition start (d : Desk) : World Desk := mkWorld console d [].

(** The user picks [files] in the one dialog shown and answers the
    forms with [answers]; [unreadable] can be neither read nor written;
    no [.inf] file is on the disk. *)
Definition picking (files : list string) (answers : list (option nOpenParam))
    (unreadable : list string) : Desk :=
  mkDesk [Ok (files, "")] None answers [] unreadable [].

Definition float_image : ndarray :=
  mkArray (mkDtype LittleEndian "f" 8) [].

Definition byte_image : ndarray :=
  mkArray (mkDtype NotApplicable "u" 1) [].

(** A form answered for all files: manual offset 512, big-endian
    uint16. *)
Definition form_512 : nOpenParam :=
  mknOpenParam (mkOpenParam uint16 from_end false true 512) true.

(** The same form, with [one4all] left unticked. *)
Definition form_512_each : nOpenParam :=
  mknOpenParam (mkOpenParam uint16 from_end false true 512) false.

(** A form with the offset mode chosen, little-endian int32. *)
Definition form_auto : nOpenParam :=
  mknOpenParam (mkOpenParam int32 auto true false 0) false.

Definition params_512 : gmap string PyVal :=
  <["offset" := VInt 512]>
    (<["dtype" := VDtype (mkDtype BigEndian "u" 2)]> ∅).

(** The same host, except that the reads it refuses are interrupted
    from the keyboard rather than failing. *)
Definition interrupted_host : Host Desk := {|
  big_endian := false;
  tr := λ s, s;
  splitext := Posix.splitext;
  basename := Posix.basename;
  get_filters := λ _ _ _, "Images (*.png *.tif *.dcm *.raw)";
  isfile := λ path d, bool_decide (path ∈ disk d);
  getsavefilename := λ _ _ _ _, dialog_one;
  getopenfilename := λ _ _ _ _, dialog_one;
  getopenfilenames := λ _ _ _ _, dialog_many;
  edit_OpenParam := λ _ d, let '(r, d1) := next_form d in (n_items <$> r, d1);
  edit_nOpenParam := λ _ d, next_form d;
  imwrite := λ filename _ _ d,
    (if is_broken d filename
     then Raise (mkExn OSError "cannot write") else Ok tt, d);
  imread := λ filename _ _ d,
    (if is_broken d filename
     then Raise (mkExn KeyboardInterrupt "") else Ok sample, d);
  print_exc := λ _ d, d;
  critical := λ _ title text d, shown d title text
|}.

End Script.

(** ** Reading a trace *)
Definition is_save_dialog (e : Event) : bool :=
  match e with EGetSaveFileName _ _ _ _ _ => true | _ => false end.

Definition is_dialog (e : Event) : bool :=
  match e with
  | EGetSaveFileName _ _ _ _ _ | EGetOpenFileName _ _ _ _ _
  | EGetOpenFileNames _ _ _ _ _ => true
  | _ => false
  end.

Definition is_imwrite (e : Event) : bool :=
  match e with EImwrite _ _ _ _ => true | _ => false end.

Definition is_edit (e : Event) : bool :=
  match e with EEdit _ _ _ => true | _ => false end.

(** The pairs yielded, in order. *)
Definition yields (t : list Obs) : list (string * ndarray) :=
  omap (λ o, match call o with EYield f d => Some (f, d) | _ => None end) t.

(** The calls to [io.imread], in order: file name and answer. *)
Definition reads (t : list Obs) : list (string * Result ndarray) :=
  omap (λ o, match call o with
             | EImread f _ _ r => Some (f, r)
             | _ => None
             end) t.

(** The items of the form edited last, when it was accepted, [cur]
    being those in force before [t]. *)
Definition form_after (cur : option OpenParam) (t : list Obs)
    : option OpenParam :=
  fold_left (λ cur o, match call o with
                      | EEdit _ _ r => n_items <$> r
                      | _ => cur
                      end) t cur.

Definition current_form (t : list Obs) : option OpenParam :=
  form_after None t.

(** [s] occurs inside [t]. *)
Definition occurs_in (s t : string) : Prop :=
  ∃ pre post, t = pre +:+ s +:+ post.

(** A computation is calm when it leaves the standard streams as they
    are and every call it makes sees them so and satisfies [P]. *)
Definition calm {Env A} (P : Event → Prop) (m : M (World Env) A) : Prop :=
  ∀ w r w1, m w = (r, w1) →
    streams w1 = streams w
    ∧ ∃ t, trace w1 = trace w ++ t
           ∧ Forall (λ o, seen o = streams w ∧ P (call o)) t.

(** The records of a handler: a traceback and perhaps a box. *)
Definition aftermath (t : list Obs) : Prop :=
  Forall (λ o, match call o with
               | EPrintExc _ | ECritical _ _ _ => True
               | _ => False
               end) t.

(** The condition of lines 234-235 under which the loop shows a form
    for the file at hand. *)
Definition asks (RAW : bool) (st : Locals) : bool :=
  RAW && (bool_decide (params st = ∅) || negb (one4all st)).

(** The standard streams are handled as the module intends between the
    worlds [w] and [w2]: the first call made is a file dialog, which
    sees [sys.stdout] unbound and the other two streams as they were;
    every later call that is not a dialog sees the three streams as they
    were; and at the end they are as they were. *)
Definition restored {Env} (w w2 : World Env) : Prop :=
  streams w2 = streams w
  ∧ ∃ o t, trace w2 = trace w ++ o :: t
           ∧ is_dialog (call o) = true
           ∧ seen o = mkStreams (sys_stdin (streams w)) None
                        (sys_stderr (streams w))
           ∧ Forall (λ o1, is_dialog (call o1) = false →
                           seen o1 = streams w) t.

Section Outcomes.
Context {Env : Type} `{Host Env}.

(** The RAW decision in the words of lines 159-167: some file was
    selected, the extension of the first one announces a raw image, and
    no [.inf] file stands beside it. *)
Definition raw_decision (filenames : list string) (v : Env) : bool :=
  match filenames with
  | [] => false
  | first :: _ =>
      is_raw_ext (snd (splitext first))
      && negb (isfile (fst (splitext first) +:+ ".inf") v)
  end.

(** What a run over [files] that left the records [t] and ended with
    [r] has served: the data [ds] of the files read, a pair yielded for
    each, in the order of [files]; and then either every file was
    served, or the read of the next file raised, or a form was
    cancelled. *)
Definition served (parent : option Widget) (app_name : option string)
    (files : list string) (t : list Obs) (r : Result unit) : Prop :=
  ∃ (ds : list ndarray) (tail : list (string * Result ndarray)),
    (length ds ≤ length files)%nat
    ∧ yields t = zip files ds
    ∧ reads t = zip files (Ok <$> ds) ++ tail
    ∧ ((length ds = length files ∧ tail = [] ∧ r = Ok tt)
       ∨ (∃ f e,
            files !! length ds = Some f ∧ tail = [(f, Raise e)]
            ∧ (isinstance_Exception e = true →
               ∀ head,
                 pct (tr "%s could not be opened:") (basename f) = Ok head →
                 r = Ok tt
                 ∧ call <$> last t
                   = Some (ECritical parent
                             (match app_name with
                              | None => tr "Error"
                              | Some a => a
                              end)
                             (head +:+ newline +:+ exc_msg e))))
       ∨ ((length ds < length files)%nat ∧ tail = [] ∧ r = Ok tt
          ∧ ∃ c title, call <$> last t = Some (EEdit c title None))).

(** Every read in [t] is given the dictionary built from the form
    accepted last before it, [cur] being the form in force before
    [t]. *)
Fixpoint governed (cur : option OpenParam) (t : list Obs) : Prop :=
  match t with
  | [] => True
  | o :: t1 =>
      match call o with
      | EEdit _ _ r => governed (n_items <$> r) t1
      | EImread _ _ ps _ =>
          (∃ F m, cur = Some F ∧ ps = Some m ∧ raw_params F = Ok m)
          ∧ governed cur t1
      | _ => governed cur t1
      end
  end.

(** No form is shown in [t] and every read is given the empty
    dictionary. *)
Definition plain (t : list Obs) : Prop :=
  Forall (λ o, match call o with
               | EEdit _ _ _ => False
               | EImread _ _ ps _ => ps = Some ∅
               | _ => True
               end) t.

End Outcomes.

(** The calls to [io.imwrite], in order: file name, array and keyword
    dictionary. *)
Definition imwrites (t : list Obs)
    : list (string * ndarray * gmap string PyVal) :=
  omap (λ o, match call o with
             | EImwrite f d kw _ => Some (f, d, kw)
             | _ => None
             end) t.

(** The probes of the file system, in order: path and answer. *)
Definition probes (t : list Obs) : list (string * bool) :=
  omap (λ o, match call o with
             | EIsFile path r => Some (path, r)
             | _ => None
             end) t.

(** The forms shown, in order: class, title and answer. *)
Definition forms_shown (t : list Obs)
    : list (FormClass * string * option nOpenParam) :=
  omap (λ o, match call o with
             | EEdit c title r => Some (c, title, r)
             | _ => None
             end) t.

(** No traceback is printed and no message box is shown in [t]. *)
Definition unreported (t : list Obs) : Prop :=
  Forall (λ o, match call o with
               | EPrintExc _ | ECritical _ _ _ => False
               | _ => True
               end) t.

(** ** Facts about formatting *)

(** A template that formats has consumed its argument: the argument
    occurs in the text produced. *)
Lemma pct_from_occurs (n : nat) (t a s : string) :
  (String.length t < n)%nat → pct_from t (Some a) = Ok s → occurs_in a s.
Proof.
  revert t s. induction n as [|n IH]; intros t s Hn; [lia |].
  destruct t as [|c t1]; simpl; [done |].
  simpl in Hn. destruct (Ascii.eqb c "%").
  - destruct t1 as [|d t2]; [done |]. simpl in Hn.
    destruct (Ascii.eqb d "s").
    + destruct (pct_from t2 None) as [s2|]; simpl; [| done].
      intros [= <-]. by exists "", s2.
    + destruct (Ascii.eqb d "%"); [| done].
      destruct (pct_from t2 (Some a)) as [s2|] eqn:E2; simpl; [| done].
      intros [= <-].
      destruct (IH t2 s2) as (pre & post & ->); [lia | done |].
      by exists (String "%" pre), post.
  - destruct (pct_from t1 (Some a)) as [s1|] eqn:E1; simpl; [| done].
    intros [= <-].
    destruct (IH t1 s1) as (pre & post & ->); [lia | done |].
    by exists (String c pre), post.
Qed.

Lemma pct_occurs (template arg text : string) :
  pct template arg = Ok text → occurs_in arg text.
Proof. apply (pct_from_occurs (S (String.length template))). lia. Qed.

Section Facts.
Context {Env : Type} `{Host Env}.

Local Abbreviation IO := (M (World Env)).

(** ** The error box *)

Lemma report_run parent app_name template filename msg head (w : World Env) :
  pct (tr template) (basename filename) = Ok head →
  report parent app_name template filename msg w =
    (Ok tt,
     mkWorld (streams w)
       (critical parent (error_title app_name) (error_text head msg)
          (print_exc msg (env w)))
       (trace w ++ failure_records (streams w) parent app_name head msg)).
Proof.
  intros Hfmt. unfold report, bind, call_print_exc, lift, call_critical,
    record, failure_records, error_text. simpl. rewrite Hfmt. simpl.
  by rewrite <- app_assoc.
Qed.

(** ** exec_image_save_dialog *)

(** With [convert] true the condition of line 80 reads [ext]. *)
Lemma write_attempt_float filename data kwargs (w : World Env) :
  write_attempt filename data kwargs true w = (Raise name_error_ext, w).
Proof. reflexivity. Qed.

(** With [convert] false the condition is decided by its first operand
    and the array goes to [io.imwrite] as it is. *)
Lemma write_attempt_direct filename data kwargs (w : World Env) :
  write_attempt filename data kwargs false w =
    (map_result (λ _, Some filename) (fst (imwrite filename data kwargs (env w))),
     mkWorld (streams w) (snd (imwrite filename data kwargs (env w)))
       (trace w ++ [mkObs (streams w)
                      (EImwrite filename data kwargs
                         (fst (imwrite filename data kwargs (env w))))])).
Proof.
  unfold write_attempt, por, bind, ret, call_imwrite, record. simpl.
  destruct (imwrite filename data kwargs (env w)) as [[[]|e] v]; reflexivity.
Qed.

(** What the dialog phase leaves behind: one or two calls of the save
    dialog, the first made with [sys.stdout] unbound; when it answers,
    the streams are those saved and the answer is that of the last
    call. *)
Lemma choose_save_file_spec parent basedir filters saved
    (w0 w1 : World Env) r :
  choose_save_file parent basedir filters saved w0 = (r, w1) →
  ∃ e1 ds, trace w1 = trace w0 ++ mkObs (streams w0) e1 :: ds
        ∧ Forall (λ o, is_save_dialog (call o) = true)
            (mkObs (streams w0) e1 :: ds)
        ∧ (∀ x, r = Ok x →
             streams w1 = saved
             ∧ ∃ pre s c b f,
                 mkObs (streams w0) e1 :: ds
                 = pre ++ [mkObs s (EGetSaveFileName parent c b f (Ok x))]).
Proof.
  unfold choose_save_file, try_except, bind, call_getsavefilename,
    set_streams, ret, record. simpl.
  destruct (getsavefilename parent (tr "Save as") basedir filters
              (streams w0) (env w0)) as [[[x|e] s] v] eqn:E1; simpl.
  - intros [= <- <-]. do 2 eexists. split; [reflexivity |].
    split; [by repeat constructor |]. intros ? [= <-].
    split; [done |]. by exists [], (streams w0), (tr "Save as"), basedir, filters.
  - destruct (isinstance_TypeError e); simpl.
    + destruct (getsavefilename parent (tr "Save as") "" filters s v)
        as [[[x2|e2] s2] v2] eqn:E2; simpl; intros [= <- <-]; simpl;
        rewrite <- app_assoc; (do 2 eexists; split; [reflexivity |]);
        (split; [by repeat constructor |]); [| done].
      intros ? [= <-]. split; [done |].
      by eexists [_], s, (tr "Save as"), "", filters.
    + intros [= <- <-]. do 2 eexists. split; [reflexivity |].
      split; [by repeat constructor | done].
Qed.

Lemma exec_image_save_dialog_eq parent data template basedir app_name
    (w : World Env) :
  exec_image_save_dialog parent data template basedir app_name w =
    match choose_save_file parent basedir (save_filters data template)
            (streams w) (hushed w) with
    | (Ok (filename, _), w1) =>
        if nonempty filename then
          try_except
            (write_attempt filename data (save_kwargs filename template)
               (is_float_le data))
            isinstance_Exception
            (write_failed parent app_name filename) w1
        else (Ok None, w1)
    | (Raise e, w1) => (Raise e, w1)
    end.
Proof.
  unfold exec_image_save_dialog, bind, get_streams, set_stdout. simpl.
  fold (hushed w).
  destruct (is_float_le data);
    destruct (choose_save_file _ _ _ _ _) as [[[f sel]|e] w1]; simpl;
    try done; by destruct (nonempty f).
Qed.

Lemma nonempty_true (s : string) : s ≠ "" → nonempty s = true.
Proof.
  intros Hs. unfold nonempty. destruct (String.eqb_spec s ""); done.
Qed.

Lemma write_failed_run parent app_name filename msg head (w : World Env) :
  pct (tr "%s could not be written:") (basename filename) = Ok head →
  ∃ w2, write_failed parent app_name filename msg w = (Ok None, w2)
        ∧ streams w2 = streams w
        ∧ trace w2 = trace w
                     ++ failure_records (streams w) parent app_name head msg.
Proof.
  intros Hfmt. unfold write_failed, bind.
  rewrite (report_run _ _ _ _ _ head) by done. by eexists.
Qed.

Lemma open_failed_run {A} parent app_name filename msg head (w : World Env) :
  pct (tr "%s could not be opened:") (basename filename) = Ok head →
  ∃ w2, open_failed (A := A) parent app_name filename msg w = (Ok None, w2)
        ∧ streams w2 = streams w
        ∧ trace w2 = trace w
                     ++ failure_records (streams w) parent app_name head msg.
Proof.
  intros Hfmt. unfold open_failed, bind.
  rewrite (report_run _ _ _ _ _ head) by done. by eexists.
Qed.

(** ** Rules for calm computations *)

Lemma calm_ret {A} P (a : A) : calm (Env := Env) P (ret a).
Proof. intros w r w1 [= <- <-]. split; [done |]. exists []. by rewrite app_nil_r. Qed.

Lemma calm_raise {A} P e : calm (Env := Env) (A := A) P (raise e).
Proof. intros w r w1 [= <- <-]. split; [done |]. exists []. by rewrite app_nil_r. Qed.

Lemma calm_lift {A} P (x : Result A) : calm (Env := Env) P (lift x).
Proof. intros w r w1 [= <- <-]. split; [done |]. exists []. by rewrite app_nil_r. Qed.

Lemma calm_join (P : Event → Prop) (w w1 w2 : World Env) t1 :
  streams w1 = streams w → trace w1 = trace w ++ t1 →
  Forall (λ o, seen o = streams w ∧ P (call o)) t1 →
  streams w2 = streams w1 →
  (∃ t, trace w2 = trace w1 ++ t
        ∧ Forall (λ o, seen o = streams w1 ∧ P (call o)) t) →
  streams w2 = streams w
  ∧ ∃ t, trace w2 = trace w ++ t
         ∧ Forall (λ o, seen o = streams w ∧ P (call o)) t.
Proof.
  intros Hs1 Ht1 HP1 Hs2 (t & Ht2 & HP2). split; [congruence |].
  exists (t1 ++ t). rewrite Ht2, Ht1, app_assoc. split; [done |].
  apply Forall_app. split; [done |]. by rewrite Hs1 in HP2.
Qed.

Lemma calm_bind {A B} P (m : IO A) (k : A → IO B) :
  calm P m → (∀ a, calm P (k a)) → calm P (bind m k).
Proof.
  intros Hm Hk w r w2. unfold bind.
  destruct (m w) as [[a|e] w1] eqn:Em;
    destruct (Hm _ _ _ Em) as (Hs1 & t1 & Ht1 & HP1).
  - intros Ek. destruct (Hk a _ _ _ Ek) as (Hs2 & Hrest).
    by eapply calm_join.
  - intros [= <- <-]. split; [done |]. by exists t1.
Qed.

Lemma calm_try {A} P (body : IO A) catches handler :
  calm P body → (∀ e, calm P (handler e)) →
  calm P (try_except body catches handler).
Proof.
  intros Hb Hh w r w2. unfold try_except.
  destruct (body w) as [[a|e] w1] eqn:Eb;
    destruct (Hb _ _ _ Eb) as (Hs1 & t1 & Ht1 & HP1).
  - intros [= <- <-]. split; [done |]. by exists t1.
  - destruct (catches e).
    + intros Eh. destruct (Hh e _ _ _ Eh) as (Hs2 & Hrest).
      by eapply calm_join.
    + intros [= <- <-]. split; [done |]. by exists t1.
Qed.

Lemma calm_weaken {A} (P Q : Event → Prop) (m : IO A) :
  (∀ e, P e → Q e) → calm P m → calm Q m.
Proof.
  intros HPQ Hm w r w1 E. destruct (Hm _ _ _ E) as (Hs & t & Ht & HP).
  split; [done |]. exists t. split; [done |].
  eapply Forall_impl; [exact HP |]. intros o [? ?]. auto.
Qed.

(** One recorded call that does not touch the streams. *)
Lemma calm_one (P : Event → Prop) (w : World Env) (v : Env) (e : Event) :
  P e →
  streams (mkWorld (streams w) v (record w e)) = streams w
  ∧ ∃ t, trace (mkWorld (streams w) v (record w e)) = trace w ++ t
         ∧ Forall (λ o, seen o = streams w ∧ P (call o)) t.
Proof.
  intros HP. split; [done |]. exists [mkObs (streams w) e].
  split; [done |]. by repeat constructor.
Qed.

Lemma calm_isfile (P : Event → Prop) path :
  (∀ r, P (EIsFile path r)) → calm (Env := Env) P (call_isfile path).
Proof. intros HP w r w1 [= <- <-]. by apply calm_one. Qed.

Lemma calm_edit_OpenParam (P : Event → Prop) title :
  (∀ r, P (EEdit OpenParamForm title r)) →
  calm (Env := Env) P (call_edit_OpenParam title).
Proof.
  intros HP w r w1. unfold call_edit_OpenParam.
  destruct (edit_OpenParam title (env w)) as [a v].
  intros [= <- <-]. by apply calm_one.
Qed.

Lemma calm_edit_nOpenParam (P : Event → Prop) title :
  (∀ r, P (EEdit nOpenParamForm title r)) →
  calm (Env := Env) P (call_edit_nOpenParam title).
Proof.
  intros HP w r w1. unfold call_edit_nOpenParam.
  destruct (edit_nOpenParam title (env w)) as [a v].
  intros [= <- <-]. by apply calm_one.
Qed.

Lemma calm_imwrite (P : Event → Prop) filename data kwargs :
  (∀ r, P (EImwrite filename data kwargs r)) →
  calm (Env := Env) P (call_imwrite filename data kwargs).
Proof.
  intros HP w r w1. unfold call_imwrite.
  destruct (imwrite filename data kwargs (env w)) as [a v].
  intros [= <- <-]. by apply calm_one.
Qed.

Lemma calm_imread (P : Event → Prop) filename to_grayscale ps :
  (∀ r, P (EImread filename to_grayscale ps r)) →
  calm (Env := Env) P (call_imread filename to_grayscale ps).
Proof.
  intros HP w r w1. unfold call_imread.
  destruct (imread filename to_grayscale ps (env w)) as [a v].
  intros [= <- <-]. by apply calm_one.
Qed.

Lemma calm_print_exc (P : Event → Prop) e :
  P (EPrintExc e) → calm (Env := Env) P (call_print_exc e).
Proof. intros HP w r w1 [= <- <-]. by apply calm_one. Qed.

Lemma calm_critical (P : Event → Prop) parent title text :
  P (ECritical parent title text) →
  calm (Env := Env) P (call_critical parent title text).
Proof. intros HP w r w1 [= <- <-]. by apply calm_one. Qed.

Lemma calm_yield (P : Event → Prop) filename data :
  P (EYield filename data) → calm (Env := Env) P (emit_yield filename data).
Proof. intros HP w r w1 [= <- <-]. by apply calm_one. Qed.

Lemma calm_report (P : Event → Prop) parent app_name template filename msg :
  P (EPrintExc msg) → (∀ title text, P (ECritical parent title text)) →
  calm (Env := Env) P (report parent app_name template filename msg).
Proof.
  intros H1 H2. unfold report.
  apply calm_bind; [by apply calm_print_exc |]. intros _.
  apply calm_bind; [apply calm_lift |]. intros head.
  by apply calm_critical.
Qed.

(** ** What the save dialog does after the dialog has answered *)

Lemma save_kwargs_template filename template :
  save_kwargs filename template !! "template"
  = if String.eqb (lower (snd (splitext filename))) ".dcm"
    then Some (VTemplate template) else None.
Proof. unfold save_kwargs. by destruct (String.eqb _ _). Qed.

Lemma calm_write_attempt (P : Event → Prop) filename data kwargs convert :
  (∀ r, P (EImwrite filename data kwargs r)) →
  calm (Env := Env) P (write_attempt filename data kwargs convert).
Proof.
  intros HP. destruct convert.
  - intros w r w1. rewrite write_attempt_float. intros [= <- <-].
    split; [done |]. exists []. by rewrite app_nil_r.
  - intros w r w1. rewrite write_attempt_direct. intros [= <- <-].
    by apply calm_one.
Qed.

Lemma is_float_le_spec data :
  dtype_str (arr_dtype data) = "<f4" ∨ dtype_str (arr_dtype data) = "<f8" →
  is_float_le data = true.
Proof. unfold is_float_le. by intros [-> | ->]. Qed.

(** C2: for a data array whose dtype string is '<f4' or '<f8', once the
    save dialog is accepted with a non-empty filename, reading the
    never-assigned name [ext] raises NameError inside the [try]; no call
    to io.imwrite is made, the handler shows the critical message box
    and the function returns None. *)
Theorem save_float_skips_imwrite parent data template basedir app_name
    (w w1 : World Env) filename sel head :
  dtype_str (arr_dtype data) = "<f4" ∨ dtype_str (arr_dtype data) = "<f8" →
  choose_save_file parent basedir (save_filters data template)
    (streams w) (hushed w) = (Ok (filename, sel), w1) →
  filename ≠ "" →
  pct (tr "%s could not be written:") (basename filename) = Ok head →
  write_attempt filename data (save_kwargs filename template)
    (is_float_le data) w1
  = (Raise (mkExn NameError "name 'ext' is not defined"), w1)
  ∧ ∃ w2 ds,
      exec_image_save_dialog parent data template basedir app_name w
      = (Ok None, w2)
      ∧ trace w2
        = trace w ++ ds
          ++ [mkObs (streams w)
                (EPrintExc (mkExn NameError "name 'ext' is not defined"));
              mkObs (streams w)
                (ECritical parent
                   (match app_name with None => tr "Error" | Some a => a end)
                   (head +:+ newline +:+ "name 'ext' is not defined"))]
      ∧ Forall (λ o, is_save_dialog (call o) = true) ds
      ∧ Forall (λ o, is_imwrite (call o) = false) (drop (length (trace w)) (trace w2)).
Proof.
  intros Hf Hc Hne Hfmt. apply is_float_le_spec in Hf.
  rewrite Hf, write_attempt_float. split; [done |].
  destruct (choose_save_file_spec _ _ _ _ _ _ _ Hc)
    as (e1 & ds & Ht1 & Hds & Hok).
  destruct (Hok _ eq_refl) as [Hs1 _]. simpl in Ht1.
  destruct (write_failed_run parent app_name filename name_error_ext head w1
              Hfmt) as (w2 & Hrun & Hs2 & Ht2).
  exists w2, (mkObs (streams (hushed w)) e1 :: ds).
  rewrite exec_image_save_dialog_eq, Hc, nonempty_true by done.
  unfold try_except. rewrite Hf, write_attempt_float. simpl.
  split; [done |].
  assert (trace w2 = trace w ++ (mkObs (streams (hushed w)) e1 :: ds)
          ++ failure_records (streams w) parent app_name head name_error_ext)
    as Hall.
  { rewrite Ht2, Ht1, Hs1. by rewrite <- app_assoc. }
  split; [exact Hall |]. split; [done |].
  rewrite Hall, drop_app_length. apply Forall_app. split.
  - eapply Forall_impl; [exact Hds |]. intros o. simpl.
    destruct (call o); simpl; congruence.
  - by repeat constructor.
Qed.

Lemma write_attempt_keeps filename data kwargs convert (w1 w2 : World Env) r :
  write_attempt filename data kwargs convert w1 = (r, w2) →
  streams w2 = streams w1.
Proof.
  intros E.
  by destruct (calm_write_attempt (λ _, True) filename data kwargs convert
                 (λ _, I) _ _ _ E).
Qed.

(** C3: when the save dialog is accepted with a non-empty filename and
    the write attempt raises an exception, a critical message box is
    shown whose title is app_name (the translated "Error" when app_name
    is None) and whose text names the basename of the file, and the
    function returns None. *)
Theorem save_failure_is_reported parent data template basedir app_name
    (w w1 w2 : World Env) filename sel e head :
  choose_save_file parent basedir (save_filters data template)
    (streams w) (hushed w) = (Ok (filename, sel), w1) →
  filename ≠ "" →
  write_attempt filename data (save_kwargs filename template)
    (is_float_le data) w1 = (Raise e, w2) →
  isinstance_Exception e = true →
  pct (tr "%s could not be written:") (basename filename) = Ok head →
  occurs_in (basename filename) head
  ∧ ∃ w3,
      exec_image_save_dialog parent data template basedir app_name w
      = (Ok None, w3)
      ∧ trace w3
        = trace w2
          ++ [mkObs (streams w) (EPrintExc e);
              mkObs (streams w)
                (ECritical parent
                   (match app_name with None => tr "Error" | Some a => a end)
                   (head +:+ newline +:+ exc_msg e))].
Proof.
  intros Hc Hne Hw He Hfmt. split; [by eapply pct_occurs |].
  destruct (choose_save_file_spec _ _ _ _ _ _ _ Hc)
    as (e1 & ds & Ht1 & Hds & Hok).
  destruct (Hok _ eq_refl) as [Hs1 _].
  pose proof (write_attempt_keeps _ _ _ _ _ _ _ Hw) as Hs2.
  destruct (write_failed_run parent app_name filename e head w2 Hfmt)
    as (w3 & Hrun & Hs3 & Ht3).
  exists w3. rewrite exec_image_save_dialog_eq, Hc, nonempty_true by done.
  unfold try_except. rewrite Hw, He. split; [done |].
  rewrite Ht3, Hs2, Hs1. done.
Qed.

(** X5: an array that is not little-endian float is handed to
    io.imwrite under the chosen filename, with the keywords of lines
    76-78, and the filename is returned when the write succeeds; that
    call is the only one made after the dialog. *)
Lemma save_direct_image_written parent data template basedir app_name
    (w w1 : World Env) filename sel v :
  is_float_le data = false →
  choose_save_file parent basedir (save_filters data template)
    (streams w) (hushed w) = (Ok (filename, sel), w1) →
  filename ≠ "" →
  imwrite filename data (save_kwargs filename template) (env w1)
  = (Ok tt, v) →
  exec_image_save_dialog parent data template basedir app_name w
  = (Ok (Some filename),
     mkWorld (streams w1) v
       (trace w1
        ++ [mkObs (streams w1)
              (EImwrite filename data (save_kwargs filename template)
                 (Ok tt))])).
Proof.
  intros Hf Hc Hne Hw.
  rewrite exec_image_save_dialog_eq, Hc, nonempty_true by done.
  unfold try_except. by rewrite Hf, write_attempt_direct, Hw.
Qed.

(** X15: every call to io.imwrite that a run of exec_image_save_dialog
    makes is on the filename that the dialog answered and with the
    given data, and it carries the DICOM template as the "template"
    keyword if and only if the extension of that filename, lowercased,
    equals ".dcm". *)
Theorem save_template_iff_dcm parent data template basedir app_name
    (w w2 : World Env) r s filename d kwargs res :
  exec_image_save_dialog parent data template basedir app_name w = (r, w2) →
  mkObs s (EImwrite filename d kwargs res)
    ∈ drop (length (trace w)) (trace w2) →
  (kwargs !! "template" = Some (VTemplate template)
   ↔ lower (snd (splitext filename)) = ".dcm")
  ∧ (kwargs !! "template" = None
     ↔ lower (snd (splitext filename)) ≠ ".dcm")
  ∧ d = data
  ∧ ∃ s0 c b f sel,
      mkObs s0 (EGetSaveFileName parent c b f (Ok (filename, sel)))
        ∈ drop (length (trace w)) (trace w2).
Proof.
  rewrite exec_image_save_dialog_eq.
  destruct (choose_save_file _ _ _ _ _) as [[[fn sel]|e] w1] eqn:Hc;
    destruct (choose_save_file_spec _ _ _ _ _ _ _ Hc)
      as (e1 & ds & Ht1 & Hds & Hok);
    change (trace (hushed w)) with (trace w) in Ht1.
  - destruct (Hok _ eq_refl) as [Hs1 (pre & s0 & c & b & f & Hlast)].
    set (P := λ ev : Event,
           ∀ fn' d' kw' r', ev = EImwrite fn' d' kw' r' →
             fn' = fn ∧ d' = data ∧ kw' = save_kwargs fn template).
    assert (calm (Env := Env) P
              (if nonempty fn
               then try_except
                      (write_attempt fn data (save_kwargs fn template)
                         (is_float_le data))
                      isinstance_Exception (write_failed parent app_name fn)
               else ret None)) as Hcalm.
    { destruct (nonempty fn); [| apply calm_ret].
      apply calm_try.
      - apply calm_write_attempt. by intros ? ? ? ? ? [= <- <- <- _].
      - intros msg. unfold write_failed.
        apply calm_bind; [| intros _; apply calm_ret].
        by apply calm_report. }
    intros Hrun Hin.
    assert ((if nonempty fn
             then try_except
                    (write_attempt fn data (save_kwargs fn template)
                       (is_float_le data))
                    isinstance_Exception (write_failed parent app_name fn)
             else ret None) w1 = (r, w2)) as Hrun'.
    { by destruct (nonempty fn). }
    destruct (Hcalm _ _ _ Hrun') as (_ & t & Ht2 & HP).
    rewrite Ht2, Ht1, <- app_assoc, drop_app_length in Hin |- *.
    apply elem_of_app in Hin as [Hin | Hin].
    + rewrite Forall_forall in Hds. specialize (Hds _ Hin). done.
    + rewrite Forall_forall in HP. destruct (HP _ Hin) as [_ HPo].
      destruct (HPo _ _ _ _ eq_refl) as (-> & -> & ->).
      rewrite save_kwargs_template.
      destruct (String.eqb_spec (lower (snd (splitext fn))) ".dcm") as [E|E].
      * repeat split; try done. exists s0, c, b, f, sel.
        apply elem_of_app. left. rewrite Hlast. apply elem_of_app. right.
        by apply list_elem_of_singleton.
      * repeat split; try done. exists s0, c, b, f, sel.
        apply elem_of_app. left. rewrite Hlast. apply elem_of_app. right.
        by apply list_elem_of_singleton.
  - intros [= <- <-]. rewrite Ht1, drop_app_length. intros Hin.
    rewrite Forall_forall in Hds. specialize (Hds _ Hin). done.
Qed.

(** ** exec_image_open_dialog *)

Lemma exec_image_open_dialog_eq parent basedir app_name to_grayscale dtype
    (w : World Env) :
  exec_image_open_dialog parent basedir app_name to_grayscale dtype w =
    match getopenfilename parent (tr "Open") basedir
            (get_filters "load" dtype None)
            (streams (hushed w)) (env w) with
    | (Ok (filename, sel), s, v) =>
        try_except
          (data <- call_imread filename to_grayscale None ;;
           ret (Some (filename, data)))
          isinstance_Exception
          (open_failed parent app_name filename)
          (mkWorld (streams w) v
             (trace w
              ++ [mkObs (streams (hushed w))
                    (EGetOpenFileName parent (tr "Open") basedir
                       (get_filters "load" dtype None)
                       (Ok (filename, sel)))]))
    | (Raise e, s, v) =>
        (Raise e,
         mkWorld s v
           (trace w
            ++ [mkObs (streams (hushed w))
                  (EGetOpenFileName parent (tr "Open") basedir
                     (get_filters "load" dtype None) (Raise e))]))
    end.
Proof.
  unfold exec_image_open_dialog, bind, get_streams, set_stdout,
    call_getopenfilename, set_streams, record. simpl.
  by destruct (getopenfilename _ _ _ _ _ _) as [[[[f sel]|e] s] v].
Qed.

(** The failure path of the single-file dialog, with the records it
    leaves. *)
Lemma open_dialog_failure parent basedir app_name to_grayscale dtype
    (w : World Env) filename sel s v e v1 head :
  getopenfilename parent (tr "Open") basedir (get_filters "load" dtype None)
    (streams (hushed w)) (env w) = (Ok (filename, sel), s, v) →
  imread filename to_grayscale None v = (Raise e, v1) →
  isinstance_Exception e = true →
  pct (tr "%s could not be opened:") (basename filename) = Ok head →
  ∃ w3,
    exec_image_open_dialog parent basedir app_name to_grayscale dtype w
    = (Ok None, w3)
    ∧ trace w3
      = trace w
        ++ [mkObs (streams (hushed w))
              (EGetOpenFileName parent (tr "Open") basedir
                 (get_filters "load" dtype None) (Ok (filename, sel)));
            mkObs (streams w) (EImread filename to_grayscale None (Raise e));
            mkObs (streams w) (EPrintExc e);
            mkObs (streams w)
              (ECritical parent (error_title app_name) (error_text head e))].
Proof.
  intros Hd Hr He Hfmt. rewrite exec_image_open_dialog_eq, Hd.
  unfold try_except, bind, call_imread, record. simpl.
  rewrite Hr, He.
  match goal with |- ∃ w3, open_failed _ _ _ _ ?w2 = _ ∧ _ =>
    destruct (open_failed_run (A := string * ndarray) parent app_name
                filename e head w2 Hfmt) as (w3 & Hrun & Hs3 & Ht3)
  end.
  exists w3. split; [done |]. rewrite Ht3. simpl.
  by rewrite <- !app_assoc.
Qed.

(** C4: in exec_image_open_dialog, when io.imread on the chosen
    filename succeeds the function returns the pair of that filename and
    the array io.imread gave; when io.imread raises, a critical message
    box is shown (titled app_name, or "Error" through the catalogue when
    app_name is None) and the function returns None. *)
Theorem open_reads_or_reports parent basedir app_name to_grayscale dtype
    (w : World Env) filename sel s v :
  getopenfilename parent (tr "Open") basedir (get_filters "load" dtype None)
    (streams (hushed w)) (env w) = (Ok (filename, sel), s, v) →
  let asked :=
    mkObs (streams (hushed w))
      (EGetOpenFileName parent (tr "Open") basedir
         (get_filters "load" dtype None) (Ok (filename, sel))) in
  (∀ data v1,
     imread filename to_grayscale None v = (Ok data, v1) →
     exec_image_open_dialog parent basedir app_name to_grayscale dtype w
     = (Ok (Some (filename, data)),
        mkWorld (streams w) v1
          (trace w
           ++ [asked;
               mkObs (streams w)
                 (EImread filename to_grayscale None (Ok data))])))
  ∧ (∀ e v1 head,
       imread filename to_grayscale None v = (Raise e, v1) →
       isinstance_Exception e = true →
       pct (tr "%s could not be opened:") (basename filename) = Ok head →
       ∃ w3,
         exec_image_open_dialog parent basedir app_name to_grayscale dtype w
         = (Ok None, w3)
         ∧ trace w3
           = trace w
             ++ [asked;
                 mkObs (streams w)
                   (EImread filename to_grayscale None (Raise e));
                 mkObs (streams w) (EPrintExc e);
                 mkObs (streams w)
                   (ECritical parent
                      (match app_name with
                       | None => tr "Error"
                       | Some a => a
                       end)
                      (head +:+ newline +:+ exc_msg e))]).
Proof.
  intros Hd asked. split.
  - intros data v1 Hr. rewrite exec_image_open_dialog_eq, Hd.
    unfold try_except, bind, call_imread, ret, record. simpl.
    rewrite Hr. simpl. by rewrite <- app_assoc.
  - intros e v1 head Hr He Hfmt.
    exact (open_dialog_failure parent basedir app_name to_grayscale dtype w
             filename sel s v e v1 head Hd Hr He Hfmt).
Qed.

(** C9: when the open dialog of exec_image_open_dialog is cancelled and
    so answers the empty string, the function does not return early: it
    calls io.imread on the empty string, and when that read raises, the
    critical message box is shown and None is returned. *)
Theorem open_cancel_still_reads parent basedir app_name to_grayscale dtype
    (w : World Env) sel s v :
  getopenfilename parent (tr "Open") basedir (get_filters "load" dtype None)
    (streams (hushed w)) (env w) = (Ok ("", sel), s, v) →
  let run :=
    exec_image_open_dialog parent basedir app_name to_grayscale dtype w in
  mkObs (streams w)
    (EImread "" to_grayscale None (fst (imread "" to_grayscale None v)))
    ∈ drop (length (trace w)) (trace (snd run))
  ∧ (∀ e v1 head,
       imread "" to_grayscale None v = (Raise e, v1) →
       isinstance_Exception e = true →
       pct (tr "%s could not be opened:") (basename "") = Ok head →
       fst run = Ok None
       ∧ map call (drop (length (trace w)) (trace (snd run)))
         = [EGetOpenFileName parent (tr "Open") basedir
              (get_filters "load" dtype None) (Ok ("", sel));
            EImread "" to_grayscale None (Raise e);
            EPrintExc e;
            ECritical parent
              (match app_name with None => tr "Error" | Some a => a end)
              (head +:+ newline +:+ exc_msg e)]).
Proof.
  intros Hd run. split.
  - subst run. rewrite exec_image_open_dialog_eq, Hd.
    unfold try_except, bind, call_imread, record. simpl.
    destruct (imread "" to_grayscale None v) as [[data|e] v1]; simpl.
    + rewrite <- app_assoc, drop_app_length. set_solver.
    + destruct (isinstance_Exception e).
      * unfold open_failed, report, bind, call_print_exc, lift,
          call_critical, record. simpl.
        destruct (pct _ _); simpl;
          rewrite <- !app_assoc, drop_app_length; set_solver.
      * simpl. rewrite <- !app_assoc, drop_app_length. set_solver.
  - intros e v1 head Hr He Hfmt.
    destruct (open_dialog_failure parent basedir app_name to_grayscale
                dtype w "" sel s v e v1 head Hd Hr He Hfmt)
      as (w3 & Hrun & Ht3).
    subst run. rewrite Hrun. simpl. split; [done |].
    by rewrite Ht3, drop_app_length.
Qed.

(** ** exec_images_open_dialog: one turn of the loop *)

(** [np.dtype] understands the four names offered by the form. *)
Lemma np_dtype_choice (c : DtypeChoice) :
  ∃ d, np_dtype (dtype_name c) = Ok d ∧ byteorder d = native_order.
Proof. destruct c; by eexists. Qed.

(** The dictionary of an accepted form, entry by entry. *)
Lemma raw_params_spec (F : OpenParam) :
  ∃ d ps,
    np_dtype (dtype_name (p_dtype F)) = Ok d
    ∧ raw_params F = Ok ps
    ∧ ps !! "offset"
      = Some (if p_manual_switch F then VInt (p_m_offset F)
              else VStr (mode_name (p_mode F)))
    ∧ ps !! "dtype"
      = Some (VDtype (if p_endian_switch F then d else newbyteorder d))
    ∧ ps ≠ ∅.
Proof.
  destruct (np_dtype_choice (p_dtype F)) as (d & Hd & _).
  exists d. unfold raw_params. rewrite Hd. eexists. split; [done |].
  split; [done |]. split; [by rewrite lookup_insert_eq |]. split.
  - rewrite lookup_insert_ne by done. rewrite lookup_insert_eq.
    by destruct (p_endian_switch F).
  - apply insert_non_empty.
Qed.

Lemma ask_params_cases count st (w w1 : World Env) r :
  ask_params count st w = (r, w1) →
  streams w1 = streams w
  ∧ ∃ c title ans,
      trace w1 = trace w ++ [mkObs (streams w) (EEdit c title ans)]
      ∧ match ans with
        | None => r = Ok None
        | Some F =>
            ∃ st1, r = Ok (Some st1)
                   ∧ raw_params F = Ok (params st1)
                   ∧ one4all st1
                     = if (1 <? count)%nat then p_one4all F else one4all st
        end.
Proof.
  unfold ask_params.
  destruct (1 <? count)%nat; unfold bind, call_edit_nOpenParam,
    call_edit_OpenParam, record, lift, ret.
  - destruct (edit_nOpenParam _ (env w)) as [[F|] v]; simpl.
    + destruct (raw_params_spec F) as (d & ps & _ & Hps & _).
      rewrite Hps. intros [= <- <-]. split; [done |].
      exists nOpenParamForm, (tr "Open Raw Images"), (Some F).
      split; [done |]. by eexists.
    + intros [= <- <-]. split; [done |].
      by exists nOpenParamForm, (tr "Open Raw Images"), None.
  - destruct (edit_OpenParam _ (env w)) as [[F|] v]; simpl.
    + destruct (raw_params_spec F) as (d & ps & _ & Hps & _).
      rewrite Hps. intros [= <- <-]. split; [done |].
      exists OpenParamForm, (tr "Open Raw Image"),
        (Some (mknOpenParam F false)).
      split; [done |]. by eexists.
    + intros [= <- <-]. split; [done |].
      by exists OpenParamForm, (tr "Open Raw Image"), None.
Qed.

(** The three ways one turn of the [try] body can go. *)
Lemma read_one_cases count RAW tg st filename (w w1 : World Env) r :
  read_one count RAW tg st filename w = (r, w1) →
  streams w1 = streams w
  ∧ ((asks RAW st = false
      ∧ ∃ res,
          trace w1
          = trace w
            ++ [mkObs (streams w)
                  (EImread filename tg (Some (params st)) res)]
          ∧ r = map_result (λ d, Some (st, d)) res)
     ∨ (asks RAW st = true
        ∧ ∃ c title,
            trace w1 = trace w ++ [mkObs (streams w) (EEdit c title None)]
            ∧ r = Ok None)
     ∨ (asks RAW st = true
        ∧ ∃ c title (F : nOpenParam) st1 res,
            trace w1
            = trace w
              ++ [mkObs (streams w) (EEdit c title (Some F));
                  mkObs (streams w)
                    (EImread filename tg (Some (params st1)) res)]
            ∧ raw_params F = Ok (params st1)
            ∧ one4all st1
              = (if (1 <? count)%nat then p_one4all F else one4all st)
            ∧ r = map_result (λ d, Some (st1, d)) res)).
Proof.
  unfold read_one. destruct (splitext filename) as [_base ext].
  unfold bind at 1.
  destruct (asks RAW st) eqn:Ea.
  - assert ((if RAW
             then if bool_decide (params st = ∅) || negb (one4all st)
                  then ask_params count st else ret (Some st)
             else ret (Some st)) = ask_params count st) as ->.
    { unfold asks in Ea. destruct RAW; [| done]. simpl in Ea. by rewrite Ea. }
    destruct (ask_params count st w) as [ra wa] eqn:Eask.
    destruct (ask_params_cases _ _ _ _ _ Eask)
      as (Hsa & c & title & ans & Hta & Hans).
    destruct ans as [F|].
    + destruct Hans as (st1 & -> & Hps & Hone).
      unfold bind, call_imread, ret, record.
      destruct (imread filename tg (Some (params st1)) (env wa))
        as [res v] eqn:Er.
      intros Hrun. split.
      { destruct res; simplify_eq; done. }
      right. right. split; [done |].
      exists c, title, F, st1, res.
      destruct res; simplify_eq; simpl; rewrite Hta, Hsa, <- app_assoc; done.
    + subst ra. intros [= <- <-]. split; [done |].
      right. left. split; [done |]. by exists c, title.
  - assert ((if RAW
             then if bool_decide (params st = ∅) || negb (one4all st)
                  then ask_params count st else ret (Some st)
             else ret (Some st)) = ret (Some st)) as ->.
    { unfold asks in Ea. destruct RAW; [| done]. simpl in Ea. by rewrite Ea. }
    unfold ret at 1. unfold bind, call_imread, ret, record.
    destruct (imread filename tg (Some (params st)) (env w)) as [res v].
    intros Hrun. split.
    { destruct res; simplify_eq; done. }
    left. split; [done |]. exists res. destruct res; simplify_eq; done.
Qed.

(** What the handler of a failed read leaves, whether or not its
    template formats. *)
Lemma open_failed_cases {A} parent app_name filename msg (w w2 : World Env)
    (r : Result (option A)) :
  open_failed parent app_name filename msg w = (r, w2) →
  streams w2 = streams w
  ∧ ((∃ head,
        pct (tr "%s could not be opened:") (basename filename) = Ok head
        ∧ r = Ok None
        ∧ trace w2
          = trace w ++ failure_records (streams w) parent app_name head msg)
     ∨ (∃ e2,
          pct (tr "%s could not be opened:") (basename filename) = Raise e2
          ∧ r = Raise e2
          ∧ trace w2 = trace w ++ [mkObs (streams w) (EPrintExc msg)])).
Proof.
  destruct (pct (tr "%s could not be opened:") (basename filename))
    as [head|e2] eqn:Hfmt.
  - destruct (open_failed_run (A := A) parent app_name filename msg head w
                Hfmt) as (w3 & -> & Hs & Ht).
    intros [= <- <-]. split; [done |]. left. by exists head.
  - unfold open_failed, report, bind, call_print_exc, lift, record.
    simpl. rewrite Hfmt. intros [= <- <-]. split; [done |]. right.
    by exists e2.
Qed.

(** One turn of the loop: the [try] body runs, and then the loop goes
    on after a [yield], or stops. *)
Lemma read_loop_cons parent app_name count RAW tg st f rest
    (w w2 : World Env) r :
  read_loop parent app_name count RAW tg st (f :: rest) w = (r, w2) →
  ∃ r1 w1,
    read_one count RAW tg st f w = (r1, w1)
    ∧ match r1 with
      | Ok (Some (st1, d)) =>
          read_loop parent app_name count RAW tg st1 rest
            (mkWorld (streams w1) (env w1)
               (trace w1 ++ [mkObs (streams w1) (EYield f d)]))
          = (r, w2)
      | Ok None => r = Ok tt ∧ w2 = w1
      | Raise e =>
          if isinstance_Exception e then
            ∃ rh : Result (option (Locals * ndarray)),
              open_failed parent app_name f e w1 = (rh, w2)
              ∧ r = match rh with Ok _ => Ok tt | Raise e2 => Raise e2 end
          else r = Raise e ∧ w2 = w1
      end.
Proof.
  simpl. unfold bind at 1. unfold try_except.
  destruct (read_one count RAW tg st f w) as [r1 w1] eqn:E1.
  intros Hrun. exists r1, w1. split; [done |].
  destruct r1 as [[[st1 d]|]|e].
  - revert Hrun. unfold bind, emit_yield, record. done.
  - by injection Hrun as <- <-.
  - destruct (isinstance_Exception e).
    + destruct (open_failed parent app_name f e w1) as [rh wh] eqn:Eh.
      destruct (open_failed_cases _ _ _ _ _ _ _ Eh) as [_ [Hc | Hc]].
      * destruct Hc as (head & _ & -> & _). injection Hrun as <- <-.
        by eexists.
      * destruct Hc as (e2 & _ & -> & _). injection Hrun as <- <-.
        by eexists.
    + by injection Hrun as <- <-.
Qed.

(** ** The standard streams *)

Lemma calm_open_failed {A} (P : Event → Prop) parent app_name filename msg :
  P (EPrintExc msg) → (∀ title text, P (ECritical parent title text)) →
  calm (Env := Env) P (open_failed (A := A) parent app_name filename msg).
Proof.
  intros H1 H2. unfold open_failed.
  apply calm_bind; [by apply calm_report | intros _; apply calm_ret].
Qed.

Lemma calm_ask_params (P : Event → Prop) count st :
  (∀ c title r, P (EEdit c title r)) →
  calm (Env := Env) P (ask_params count st).
Proof.
  intros HP. unfold ask_params. destruct (1 <? count)%nat.
  - apply calm_bind; [by apply calm_edit_nOpenParam |].
    intros [F|]; [| apply calm_ret].
    apply calm_bind; [apply calm_lift | intros ?; apply calm_ret].
  - apply calm_bind; [by apply calm_edit_OpenParam |].
    intros [F|]; [| apply calm_ret].
    apply calm_bind; [apply calm_lift | intros ?; apply calm_ret].
Qed.

Lemma calm_read_one (P : Event → Prop) count RAW tg st filename :
  (∀ c title r, P (EEdit c title r)) →
  (∀ ps r, P (EImread filename tg ps r)) →
  calm (Env := Env) P (read_one count RAW tg st filename).
Proof.
  intros HE HR. unfold read_one. destruct (splitext filename) as [_base ext].
  apply calm_bind.
  - destruct RAW; [| apply calm_ret].
    destruct (_ || _); [by apply calm_ask_params | apply calm_ret].
  - intros [st1|]; [| apply calm_ret].
    apply calm_bind; [by apply calm_imread | intros ?; apply calm_ret].
Qed.

Lemma calm_read_loop (P : Event → Prop) parent app_name count RAW tg st rest :
  (∀ c title r, P (EEdit c title r)) →
  (∀ f ps r, P (EImread f tg ps r)) →
  (∀ e, P (EPrintExc e)) →
  (∀ title text, P (ECritical parent title text)) →
  (∀ f d, P (EYield f d)) →
  calm (Env := Env) P (read_loop parent app_name count RAW tg st rest).
Proof.
  intros HE HR HX HC HY. revert st.
  induction rest as [|f rest IH]; intros st; simpl; [apply calm_ret |].
  apply calm_bind.
  - apply calm_try; [by apply calm_read_one |].
    intros e. by apply calm_open_failed.
  - intros [[st1 d]|]; [| apply calm_ret].
    apply calm_bind; [by apply calm_yield | intros _; apply IH].
Qed.

Lemma calm_prepare (P : Event → Prop) filenames :
  (∀ path r, P (EIsFile path r)) →
  (∀ c title r, P (EEdit c title r)) →
  calm (Env := Env) P (prepare filenames).
Proof.
  intros HF HE. unfold prepare. destruct filenames as [|first more];
    [apply calm_ret |].
  destruct (splitext first) as [_base ext].
  apply calm_bind.
  - destruct (is_raw_ext ext); [| apply calm_ret].
    apply calm_bind; [by apply calm_isfile | intros ?; apply calm_ret].
  - intros [|]; [| apply calm_ret].
    destruct (1 <? _)%nat; [| apply calm_ret].
    apply calm_bind; [by apply calm_edit_nOpenParam |].
    intros [F|]; [| apply calm_ret].
    apply calm_bind; [apply calm_lift | intros ?; apply calm_ret].
Qed.

Lemma calm_read_all (P : Event → Prop) parent app_name tg filenames :
  (∀ e, is_dialog e = false → P e) →
  calm (Env := Env) P (read_all parent app_name tg filenames).
Proof.
  intros HP. unfold read_all.
  apply calm_bind; [apply calm_prepare; intros; by apply HP |].
  intros [[RAW st]|]; [| apply calm_ret].
  apply calm_read_loop; intros; by apply HP.
Qed.

Lemma exec_images_open_dialog_eq parent basedir app_name to_grayscale dtype
    (w : World Env) :
  exec_images_open_dialog parent basedir app_name to_grayscale dtype w =
    match getopenfilenames parent (tr "Open") basedir
            (get_filters "load" dtype None)
            (streams (hushed w)) (env w) with
    | (Ok (filenames, sel), s, v) =>
        read_all parent app_name to_grayscale filenames
          (mkWorld (streams w) v
             (trace w
              ++ [mkObs (streams (hushed w))
                    (EGetOpenFileNames parent (tr "Open") basedir
                       (get_filters "load" dtype None)
                       (Ok (filenames, sel)))]))
    | (Raise e, s, v) =>
        (Raise e,
         mkWorld s v
           (trace w
            ++ [mkObs (streams (hushed w))
                  (EGetOpenFileNames parent (tr "Open") basedir
                     (get_filters "load" dtype None) (Raise e))]))
    end.
Proof.
  unfold exec_images_open_dialog, bind, get_streams, set_stdout,
    call_getopenfilenames, set_streams, record. simpl.
  by destruct (getopenfilenames _ _ _ _ _ _) as [[[[f sel]|e] s] v].
Qed.

(** A dialog call followed by a calm remainder handles the streams as
    intended. *)
Lemma restored_after_dialog {A} (m : IO A) (w w1 w2 : World Env) o r :
  trace w1 = trace w ++ [o] → streams w1 = streams w →
  is_dialog (call o) = true → seen o = streams (hushed w) →
  calm (λ e, is_dialog e = false) m → m w1 = (r, w2) →
  restored w w2.
Proof.
  intros Ht1 Hs1 Hd Hseen Hm Hrun.
  destruct (Hm _ _ _ Hrun) as (Hs2 & t & Ht2 & HP).
  split; [congruence |]. exists o, t. rewrite Ht2, Ht1, <- app_assoc.
  split; [done |]. split; [done |]. split; [done |].
  eapply Forall_impl; [exact HP |]. simpl. intros o1 [Ho1 _] _. congruence.
Qed.

(** C10: each of the three dialogs saves the three standard streams on
    entry, has sys.stdout unbound while the toolkit dialog runs, and
    puts the saved streams back once the dialog has answered: on every
    normal return the three streams are as they were at entry, and the
    calls made after the dialog see them so. *)
Theorem streams_restored_on_return :
  (∀ parent data template basedir app_name (w w2 : World Env) r,
     exec_image_save_dialog parent data template basedir app_name w
     = (Ok r, w2) →
     restored w w2)
  ∧ (∀ parent basedir app_name to_grayscale dtype (w w2 : World Env) r,
       exec_image_open_dialog parent basedir app_name to_grayscale dtype w
       = (Ok r, w2) →
       restored w w2)
  ∧ (∀ parent basedir app_name to_grayscale dtype (w w2 : World Env) r,
       exec_images_open_dialog parent basedir app_name to_grayscale dtype w
       = (Ok r, w2) →
       restored w w2).
Proof.
  split; [| split].
  - intros parent data template basedir app_name w w2 r.
    rewrite exec_image_save_dialog_eq.
    destruct (choose_save_file _ _ _ _ _) as [[[fn sel]|e] w1] eqn:Hc;
      [| done].
    destruct (choose_save_file_spec _ _ _ _ _ _ _ Hc)
      as (e1 & ds & Ht1 & Hds & Hok).
    destruct (Hok _ eq_refl) as [Hs1 _].
    change (trace (hushed w)) with (trace w) in Ht1.
    intros Hrun.
    assert (calm (Env := Env) (λ e, is_dialog e = false)
              (if nonempty fn
               then try_except
                      (write_attempt fn data (save_kwargs fn template)
                         (is_float_le data))
                      isinstance_Exception (write_failed parent app_name fn)
               else ret None)) as Hcalm.
    { destruct (nonempty fn); [| apply calm_ret].
      apply calm_try; [by apply calm_write_attempt |].
      intros msg. unfold write_failed.
      apply calm_bind; [by apply calm_report | intros _; apply calm_ret]. }
    assert ((if nonempty fn
             then try_except
                    (write_attempt fn data (save_kwargs fn template)
                       (is_float_le data))
                    isinstance_Exception (write_failed parent app_name fn)
             else ret None) w1 = (Ok r, w2)) as Hrun'.
    { by destruct (nonempty fn). }
    destruct (Hcalm _ _ _ Hrun') as (Hs2 & t & Ht2 & HP).
    split; [congruence |].
    exists (mkObs (streams (hushed w)) e1), (ds ++ t).
    rewrite Ht2, Ht1, <- app_assoc. split; [done |].
    apply Forall_cons in Hds as [He1 Hds]. split; [by destruct e1 |].
    split; [done |]. apply Forall_app. split.
    + eapply Forall_impl; [exact Hds |]. intros o1. simpl.
      destruct (call o1); simpl; congruence.
    + eapply Forall_impl; [exact HP |]. simpl. intros o1 [Ho1 _] _.
      congruence.
  - intros parent basedir app_name tg dtype w w2 r.
    rewrite exec_image_open_dialog_eq.
    destruct (getopenfilename _ _ _ _ _ _) as [[[[fn sel]|e] s] v]; [| done].
    intros Hrun.
    eapply restored_after_dialog; cycle 5; [exact Hrun | done.. |].
    apply calm_try.
    + apply calm_bind; [by apply calm_imread | intros ?; apply calm_ret].
    + intros e. by apply calm_open_failed.
  - intros parent basedir app_name tg dtype w w2 r.
    rewrite exec_images_open_dialog_eq.
    destruct (getopenfilenames _ _ _ _ _ _) as [[[[fns sel]|e] s] v];
      [| done].
    intros Hrun.
    eapply restored_after_dialog; cycle 5; [exact Hrun | done.. |].
    by apply calm_read_all.
Qed.

(** ** exec_images_open_dialog: what is read and what is yielded *)

Lemma yields_app t1 t2 : yields (t1 ++ t2) = yields t1 ++ yields t2.
Proof. apply omap_app. Qed.

Lemma reads_app t1 t2 : reads (t1 ++ t2) = reads t1 ++ reads t2.
Proof. apply omap_app. Qed.

(** One turn, as far as reads and yields go. *)
Lemma read_one_summary count RAW tg st f (w w1 : World Env) r1 :
  read_one count RAW tg st f w = (r1, w1) →
  ∃ t1, trace w1 = trace w ++ t1 ∧ yields t1 = []
        ∧ match r1 with
          | Ok (Some (st1, d)) => reads t1 = [(f, Ok d)]
          | Ok None =>
              reads t1 = []
              ∧ ∃ c title, call <$> last t1 = Some (EEdit c title None)
          | Raise e => reads t1 = [(f, Raise e)]
          end.
Proof.
  intros Hrun.
  destruct (read_one_cases _ _ _ _ _ _ _ _ Hrun) as [_ [Hc | [Hc | Hc]]].
  - destruct Hc as (_ & res & Ht & ->). eexists. split; [exact Ht |].
    split; [done |]. by destruct res.
  - destruct Hc as (_ & c & title & Ht & ->). eexists.
    split; [exact Ht |]. split; [done |]. split; [done |]. by exists c, title.
  - destruct Hc as (_ & c & title & F & st1 & res & Ht & _ & _ & ->).
    eexists. split; [exact Ht |]. split; [done |]. by destruct res.
Qed.

Lemma read_loop_served parent app_name count RAW tg rest :
  ∀ st (w w2 : World Env) r,
    read_loop parent app_name count RAW tg st rest w = (r, w2) →
    ∃ t, trace w2 = trace w ++ t ∧ served parent app_name rest t r.
Proof.
  induction rest as [|f rest IH]; intros st w w2 r Hrun.
  - injection Hrun as <- <-. exists []. rewrite app_nil_r. split; [done |].
    exists [], []. split; [done |]. split; [done |]. split; [done |].
    by left.
  - destruct (read_loop_cons _ _ _ _ _ _ _ _ _ _ _ Hrun)
      as (r1 & w1 & Hone & Hnext).
    destruct (read_one_summary _ _ _ _ _ _ _ _ Hone) as (t1 & Ht1 & Hy1 & Hr1).
    destruct r1 as [[[st1 d]|]|e].
    + destruct (IH _ _ _ _ Hnext) as (t & Ht & ds & tail & Hlen & Hy & Hr & Hend).
      simpl in Ht.
      exists (t1 ++ mkObs (streams w1) (EYield f d) :: t).
      split; [rewrite Ht, Ht1, <- !app_assoc; done |].
      exists (d :: ds), tail. split; [simpl; lia |].
      split; [rewrite yields_app, Hy1; simpl; by rewrite Hy |].
      split; [rewrite reads_app, Hr1; simpl; by rewrite Hr |].
      destruct Hend as [(Hl & -> & ->) | [Hend | Hend]].
      * left. simpl. by rewrite Hl.
      * right. left. destruct Hend as (f1 & e & Hlook & -> & Hbox).
        exists f1, e. split; [done |]. split; [done |].
        intros He head Hfmt. destruct (Hbox He head Hfmt) as [-> Hlast].
        split; [done |]. rewrite last_app, last_cons.
        destruct (last t); [done | discriminate].
      * right. right. destruct Hend as (Hl & -> & -> & c & title & Hlast).
        split; [simpl; lia |]. split; [done |]. split; [done |].
        exists c, title. rewrite last_app, last_cons.
        destruct (last t); [done | discriminate].
    + destruct Hnext as [-> ->]. destruct Hr1 as (Hr1 & c & title & Hlast).
      exists t1. split; [done |]. exists [], [].
      split; [simpl; lia |]. split; [done |]. split; [done |].
      right. right. split; [simpl; lia |]. split; [done |].
      split; [done |]. by exists c, title.
    + destruct (isinstance_Exception e) eqn:He.
      * destruct Hnext as (rh & Hh & ->).
        destruct (open_failed_cases _ _ _ _ _ _ _ Hh) as [_ [Hc | Hc]].
        -- destruct Hc as (head & Hfmt & -> & Ht2).
           exists (t1 ++ failure_records (streams w1) parent app_name head e).
           split; [rewrite Ht2, Ht1, <- app_assoc; done |].
           exists [], [(f, Raise e)]. split; [simpl; lia |].
           split; [by rewrite yields_app, Hy1 |].
           split; [by rewrite reads_app, Hr1 |].
           right. left. exists f, e. split; [done |]. split; [done |].
           intros _ head' Hfmt'. rewrite Hfmt in Hfmt'.
           injection Hfmt' as <-. split; [done |].
           by rewrite last_app.
        -- destruct Hc as (e2 & Hfmt & -> & Ht2).
           exists (t1 ++ [mkObs (streams w1) (EPrintExc e)]).
           split; [rewrite Ht2, Ht1, <- app_assoc; done |].
           exists [], [(f, Raise e)]. split; [simpl; lia |].
           split; [by rewrite yields_app, Hy1 |].
           split; [by rewrite reads_app, Hr1 |].
           right. left. exists f, e. split; [done |]. split; [done |].
           intros _ head' Hfmt'. congruence.
      * destruct Hnext as [-> ->]. exists t1. split; [done |].
        exists [], [(f, Raise e)]. split; [simpl; lia |].
        split; [done |]. split; [done |].
        right. left. exists f, e. split; [done |]. split; [done |].
        intros ?. congruence.
Qed.

(** What lines 159-229 leave: at most one probe of the file system,
    then at most one form. *)
Lemma prepare_cases filenames (w w1 : World Env) r :
  prepare filenames w = (r, w1) →
  streams w1 = streams w
  ∧ ∃ probe,
      (probe = [] ∨ ∃ path b, probe = [mkObs (streams w) (EIsFile path b)])
      ∧ ((trace w1 = trace w ++ probe
          ∧ r = Ok (Some (raw_decision filenames (env w), mkLocals ∅ false))
          ∧ (raw_decision filenames (env w) = true → length filenames = 1%nat))
         ∨ (raw_decision filenames (env w) = true
            ∧ (1 < length filenames)%nat
            ∧ ∃ title,
                trace w1
                = trace w ++ probe
                  ++ [mkObs (streams w) (EEdit nOpenParamForm title None)]
                ∧ r = Ok None)
         ∨ (raw_decision filenames (env w) = true
            ∧ (1 < length filenames)%nat
            ∧ ∃ title (F : nOpenParam) st,
                trace w1
                = trace w ++ probe
                  ++ [mkObs (streams w)
                        (EEdit nOpenParamForm title (Some F))]
                ∧ raw_params F = Ok (params st)
                ∧ one4all st = p_one4all F
                ∧ r = Ok (Some (true, st)))).
Proof.
  unfold prepare, raw_decision. destruct filenames as [|first more].
  { intros [= <- <-]. split; [done |]. exists []. split; [by left |].
    left. by rewrite app_nil_r. }
  destruct (splitext first) as [_base ext]. simpl fst. simpl snd.
  unfold bind at 1.
  destruct (is_raw_ext ext); simpl andb.
  - unfold bind at 1. unfold call_isfile, ret at 1, record.
    destruct (isfile (_base +:+ ".inf") (env w)) eqn:Hfile; simpl negb.
    + intros [= <- <-]. split; [done |]. eexists. split; [right; eauto |].
      left. done.
    + destruct (1 <? length (first :: more))%nat eqn:Hmany.
      * apply Nat.ltb_lt in Hmany.
        unfold bind, call_edit_nOpenParam, record, lift, ret.
        cbn [env streams trace].
        destruct (edit_nOpenParam (tr "Open Raw Images") (env w))
          as [[F|] v]; cbv beta iota.
        -- destruct (raw_params_spec F) as (d & ps & _ & Hps & _).
           rewrite Hps. intros [= <- <-]. split; [done |].
           eexists. split; [right; eauto |]. right. right.
           split; [done |]. split; [done |].
           exists (tr "Open Raw Images"), F, (mkLocals ps (p_one4all F)).
           by rewrite <- app_assoc.
        -- intros [= <- <-]. split; [done |].
           eexists. split; [right; eauto |]. right. left.
           split; [done |]. split; [done |].
           exists (tr "Open Raw Images"). by rewrite <- app_assoc.
      * apply Nat.ltb_ge in Hmany. intros [= <- <-]. split; [done |].
        eexists. split; [right; eauto |]. left.
        split; [done |]. split; [done |]. intros _. simpl in *. lia.
  - intros [= <- <-]. split; [done |]. exists []. split; [by left |].
    left. by rewrite app_nil_r.
Qed.

Lemma yields_probe (probe : list Obs) s :
  (probe = [] ∨ ∃ path b, probe = [mkObs s (EIsFile path b)]) →
  yields probe = [] ∧ reads probe = [].
Proof. by intros [-> | (path & b & ->)]. Qed.

Lemma read_all_served parent app_name tg filenames (w w2 : World Env) r :
  read_all parent app_name tg filenames w = (r, w2) →
  ∃ t, trace w2 = trace w ++ t ∧ served parent app_name filenames t r.
Proof.
  unfold read_all, bind.
  destruct (prepare filenames w) as [rp w1] eqn:Hp.
  destruct (prepare_cases _ _ _ _ Hp) as (Hs1 & probe & Hprobe & Hc).
  destruct (yields_probe _ _ Hprobe) as [Hyp Hrp].
  destruct Hc as [(Ht1 & -> & _) | [Hc | Hc]].
  - intros Hloop.
    destruct (read_loop_served _ _ _ _ _ _ _ _ _ _ Hloop)
      as (t & Ht & ds & tail & Hlen & Hy & Hr & Hend).
    exists (probe ++ t). split; [rewrite Ht, Ht1, <- app_assoc; done |].
    exists ds, tail. split; [done |].
    split; [by rewrite yields_app, Hyp |].
    split; [by rewrite reads_app, Hrp |].
    destruct Hend as [Hend | [Hend | Hend]].
    + by left.
    + right. left. destruct Hend as (f1 & e & Hlook & -> & Hbox).
      exists f1, e. split; [done |]. split; [done |].
      intros He head Hfmt. destruct (Hbox He head Hfmt) as [-> Hlast].
      split; [done |]. rewrite last_app. destruct (last t); [done | discriminate].
    + right. right. destruct Hend as (Hl & -> & -> & c & title & Hlast).
      split; [done |]. split; [done |]. split; [done |].
      exists c, title. rewrite last_app.
      destruct (last t); [done | discriminate].
  - destruct Hc as (_ & Hmany & title & Ht1 & ->). intros [= <- <-].
    eexists. split; [exact Ht1 |]. exists [], [].
    split; [simpl; lia |].
    split; [rewrite yields_app, Hyp; by destruct filenames |].
    split; [rewrite reads_app, Hrp; by destruct filenames |].
    right. right. split; [simpl; lia |]. split; [done |]. split; [done |].
    exists nOpenParamForm, title. by rewrite last_app.
  - destruct Hc as (_ & Hmany & title & F & st & Ht1 & _ & _ & ->).
    intros Hloop.
    destruct (read_loop_served _ _ _ _ _ _ _ _ _ _ Hloop)
      as (t & Ht & ds & tail & Hlen & Hy & Hr & Hend).
    eexists. split; [rewrite Ht, Ht1, <- !app_assoc; done |].
    exists ds, tail. split; [done |].
    split; [by rewrite !yields_app, Hyp |].
    split; [by rewrite !reads_app, Hrp |].
    destruct Hend as [Hend | [Hend | Hend]].
    + by left.
    + right. left. destruct Hend as (f1 & e & Hlook & -> & Hbox).
      exists f1, e. split; [done |]. split; [done |].
      intros He head Hfmt. destruct (Hbox He head Hfmt) as [-> Hlast].
      split; [done |]. rewrite !last_app.
      destruct (last t); [done | discriminate].
    + right. right. destruct Hend as (Hl & -> & -> & c & title' & Hlast).
      split; [done |]. split; [done |]. split; [done |].
      exists c, title'. rewrite !last_app.
      destruct (last t); [done | discriminate].
Qed.

(** C5: once files are selected, exec_images_open_dialog yields one
    (filename, data) pair per selected file, in selection order, the
    data being what io.imread gave for that file; it stops yielding at
    the first file whose read raises, after showing the error message
    box, or when a raw-parameter form is cancelled. *)
Theorem opens_yields_in_order parent basedir app_name to_grayscale dtype
    (w : World Env) filenames sel s v :
  getopenfilenames parent (tr "Open") basedir (get_filters "load" dtype None)
    (streams (hushed w)) (env w) = (Ok (filenames, sel), s, v) →
  filenames ≠ [] →
  let run :=
    exec_images_open_dialog parent basedir app_name to_grayscale dtype w in
  let t := drop (S (length (trace w))) (trace (snd run)) in
  ∃ (ds : list ndarray) (tail : list (string * Result ndarray)),
    (length ds ≤ length filenames)%nat
    ∧ yields t = zip filenames ds
    ∧ reads t = zip filenames (Ok <$> ds) ++ tail
    ∧ ((length ds = length filenames ∧ tail = [] ∧ fst run = Ok tt)
       ∨ (∃ f e,
            filenames !! length ds = Some f ∧ tail = [(f, Raise e)]
            ∧ (isinstance_Exception e = true →
               ∀ head,
                 pct (tr "%s could not be opened:") (basename f) = Ok head →
                 fst run = Ok tt
                 ∧ call <$> last t
                   = Some (ECritical parent
                             (match app_name with
                              | None => tr "Error"
                              | Some a => a
                              end)
                             (head +:+ newline +:+ exc_msg e))))
       ∨ ((length ds < length filenames)%nat ∧ tail = [] ∧ fst run = Ok tt
          ∧ ∃ c title, call <$> last t = Some (EEdit c title None))).
Proof.
  intros Hd _ run t. subst t run.
  rewrite exec_images_open_dialog_eq, Hd.
  destruct (read_all parent app_name to_grayscale filenames _)
    as [r w2] eqn:Hrun.
  destruct (read_all_served _ _ _ _ _ _ _ Hrun) as (t & Ht & Hserved).
  simpl in Ht. simpl fst. simpl snd.
  rewrite Ht, <- app_assoc.
  replace (S (length (trace w))) with (length (trace w ++ [mkObs (streams (hushed w))
     (EGetOpenFileNames parent (tr "Open") basedir
        (get_filters "load" dtype None) (Ok (filenames, sel)))]))
    by (rewrite length_app; simpl; lia).
  rewrite app_assoc, drop_app_length. exact Hserved.
Qed.

(** ** exec_images_open_dialog: forms and the dictionaries they give *)

Lemma governed_app cur t1 t2 :
  governed cur (t1 ++ t2)
  ↔ governed cur t1 ∧ governed (form_after cur t1) t2.
Proof.
  revert cur. induction t1 as [|o t1 IH]; intros cur; simpl; [tauto |].
  unfold form_after. simpl. destruct (call o); try apply IH.
  rewrite IH. unfold form_after. tauto.
Qed.

Lemma form_after_app cur t1 t2 :
  form_after cur (t1 ++ t2) = form_after (form_after cur t1) t2.
Proof. apply fold_left_app. Qed.

Lemma governed_aftermath cur t : aftermath t → governed cur t.
Proof.
  induction 1 as [|o t Ho _ IH]; simpl; [done |].
  revert Ho. by destruct (call o).
Qed.

Lemma plain_aftermath t : aftermath t → plain t.
Proof.
  intros Ht. eapply Forall_impl; [exact Ht |]. intros o. simpl.
  by destruct (call o).
Qed.

Lemma failed_turn_trace parent app_name f e (w1 w2 : World Env)
    (r : Result unit) :
  (if isinstance_Exception e then
     ∃ rh : Result (option (Locals * ndarray)),
       open_failed parent app_name f e w1 = (rh, w2)
       ∧ r = match rh with Ok _ => Ok tt | Raise e2 => Raise e2 end
   else r = Raise e ∧ w2 = w1) →
  ∃ th, trace w2 = trace w1 ++ th ∧ aftermath th.
Proof.
  destruct (isinstance_Exception e).
  - intros (rh & Hh & _).
    destruct (open_failed_cases _ _ _ _ _ _ _ Hh) as [_ [Hc | Hc]].
    + destruct Hc as (head & _ & _ & Ht). eexists. split; [exact Ht |].
      by repeat constructor.
    + destruct Hc as (e2 & _ & _ & Ht). eexists. split; [exact Ht |].
      by repeat constructor.
  - intros [_ ->]. exists []. rewrite app_nil_r. split; [done | constructor].
Qed.

(** With RAW true, every read of the loop is governed by the form
    accepted last. *)
Lemma read_loop_governed parent app_name count tg rest :
  ∀ st cur (w w2 : World Env) r,
    (asks true st = false →
     ∃ F, cur = Some F ∧ raw_params F = Ok (params st)) →
    read_loop parent app_name count true tg st rest w = (r, w2) →
    ∃ t, trace w2 = trace w ++ t ∧ governed cur t.
Proof.
  induction rest as [|f rest IH]; intros st cur w w2 r Hinv Hrun.
  - injection Hrun as <- <-. exists []. by rewrite app_nil_r.
  - destruct (read_loop_cons _ _ _ _ _ _ _ _ _ _ _ Hrun)
      as (r1 & w1 & Hone & Hnext).
    destruct (read_one_cases _ _ _ _ _ _ _ _ Hone) as [_ [Hc | [Hc | Hc]]].
    + destruct Hc as (Ha & res & Ht1 & ->).
      destruct (Hinv Ha) as (F & -> & HF).
      destruct res as [d|e]; simpl in Hnext.
      * destruct (IH _ (Some F) _ _ _ Hinv Hnext) as (t & Ht & Hg).
        simpl in Ht. eexists.
        split; [rewrite Ht, Ht1, <- !app_assoc; done |].
        simpl. split; [by exists F, (params st) | done].
      * destruct (failed_turn_trace _ _ _ _ _ _ _ Hnext) as (th & Ht & Hth).
        eexists. split; [rewrite Ht, Ht1, <- !app_assoc; done |].
        simpl. split; [by exists F, (params st) |].
        by apply governed_aftermath.
    + destruct Hc as (_ & c & title & Ht1 & ->). destruct Hnext as [_ ->].
      eexists. split; [exact Ht1 | done].
    + destruct Hc as (_ & c & title & F & st1 & res & Ht1 & HF & _ & ->).
      destruct res as [d|e]; simpl in Hnext.
      * destruct (IH st1 (Some (n_items F)) _ _ _ (λ _, ex_intro _ _ (conj eq_refl HF)) Hnext)
          as (t & Ht & Hg).
        simpl in Ht. eexists.
        split; [rewrite Ht, Ht1, <- !app_assoc; done |].
        simpl. split; [by exists (n_items F), (params st1) | done].
      * destruct (failed_turn_trace _ _ _ _ _ _ _ Hnext) as (th & Ht & Hth).
        eexists. split; [rewrite Ht, Ht1, <- !app_assoc; done |].
        simpl. split; [by exists (n_items F), (params st1) |].
        by apply governed_aftermath.
Qed.

(** With RAW false, no form is shown and every read is given the empty
    dictionary. *)
Lemma read_loop_plain parent app_name count tg rest :
  ∀ st (w w2 : World Env) r,
    params st = ∅ →
    read_loop parent app_name count false tg st rest w = (r, w2) →
    ∃ t, trace w2 = trace w ++ t ∧ plain t.
Proof.
  induction rest as [|f rest IH]; intros st w w2 r Hst Hrun.
  - injection Hrun as <- <-. exists []. rewrite app_nil_r.
    split; [done | constructor].
  - destruct (read_loop_cons _ _ _ _ _ _ _ _ _ _ _ Hrun)
      as (r1 & w1 & Hone & Hnext).
    destruct (read_one_cases _ _ _ _ _ _ _ _ Hone)
      as [_ [Hc | [[Ha _] | [Ha _]]]]; [| done..].
    destruct Hc as (_ & res & Ht1 & ->). rewrite Hst in Ht1.
    destruct res as [d|e]; simpl in Hnext.
    + destruct (IH _ _ _ _ Hst Hnext) as (t & Ht & Hp).
      simpl in Ht. eexists.
      split; [rewrite Ht, Ht1, <- !app_assoc; done |].
      simpl. by repeat constructor.
    + destruct (failed_turn_trace _ _ _ _ _ _ _ Hnext) as (th & Ht & Hth).
      eexists. split; [rewrite Ht, Ht1, <- !app_assoc; done |].
      simpl. constructor; [done |]. by apply plain_aftermath.
Qed.

Lemma is_raw_ext_spec ext :
  is_raw_ext ext = true ↔ ext ∈ [".bin"; ".raw"; ".img"; ".imd"].
Proof.
  unfold is_raw_ext. rewrite !orb_true_iff, !String.eqb_eq.
  rewrite !elem_of_cons, elem_of_nil. tauto.
Qed.

Lemma raw_decision_spec filenames (v : Env) :
  raw_decision filenames v = true
  ↔ ∃ first more,
      filenames = first :: more
      ∧ snd (splitext first) ∈ [".bin"; ".raw"; ".img"; ".imd"]
      ∧ isfile (fst (splitext first) +:+ ".inf") v = false.
Proof.
  unfold raw_decision. destruct filenames as [|first more].
  - split; [done | by intros (? & ? & ? & _)].
  - rewrite andb_true_iff, negb_true_iff, is_raw_ext_spec. split.
    + intros [? ?]. by exists first, more.
    + by intros (? & ? & [= <- <-] & ? & ?).
Qed.

Lemma governed_probe cur (probe : list Obs) s :
  (probe = [] ∨ ∃ path b, probe = [mkObs s (EIsFile path b)]) →
  governed cur probe ∧ form_after cur probe = cur ∧ plain probe.
Proof.
  intros [-> | (path & b & ->)].
  - repeat split. constructor.
  - repeat split. by repeat constructor.
Qed.

Lemma asks_fresh one : asks true (mkLocals ∅ one) = true.
Proof. unfold asks. simpl. by rewrite bool_decide_eq_true_2. Qed.

(** When the first turn asks, a form is the first thing the loop
    shows. *)
Lemma read_loop_asks_first parent app_name count RAW tg st f rest
    (w w2 : World Env) r :
  asks RAW st = true →
  read_loop parent app_name count RAW tg st (f :: rest) w = (r, w2) →
  ∃ o t, trace w2 = trace w ++ o :: t ∧ is_edit (call o) = true.
Proof.
  intros Ha Hrun.
  destruct (read_loop_cons _ _ _ _ _ _ _ _ _ _ _ Hrun)
    as (r1 & w1 & Hone & Hnext).
  destruct (read_one_cases _ _ _ _ _ _ _ _ Hone)
    as [_ [[Hn _] | [Hc | Hc]]]; [congruence | |].
  - destruct Hc as (_ & c & title & Ht1 & ->). destruct Hnext as [_ ->].
    by do 2 eexists.
  - destruct Hc as (_ & c & title & F & st1 & res & Ht1 & _ & _ & ->).
    destruct res as [d|e]; simpl in Hnext.
    + destruct (read_loop_served _ _ _ _ _ _ _ _ _ _ Hnext) as (t & Ht & _).
      simpl in Ht. do 2 eexists.
      split; [rewrite Ht, Ht1, <- !app_assoc; done | done].
    + destruct (failed_turn_trace _ _ _ _ _ _ _ Hnext) as (th & Ht & _).
      do 2 eexists. split; [rewrite Ht, Ht1, <- !app_assoc; done | done].
Qed.

(** With RAW decided true: a form is shown, and every read is governed
    by the form accepted last. *)
Lemma read_all_raw parent app_name tg filenames (w w2 : World Env) r :
  raw_decision filenames (env w) = true →
  read_all parent app_name tg filenames w = (r, w2) →
  ∃ t, trace w2 = trace w ++ t ∧ governed None t
       ∧ ∃ o, o ∈ t ∧ is_edit (call o) = true.
Proof.
  intros Hraw. unfold read_all, bind.
  destruct (prepare filenames w) as [rp w1] eqn:Hp.
  destruct (prepare_cases _ _ _ _ Hp) as (Hs1 & probe & Hprobe & Hc).
  destruct (governed_probe None _ _ Hprobe) as (Hgp & Hfp & _).
  destruct Hc as [(Ht1 & -> & Hone) | [Hc | Hc]].
  - rewrite Hraw. specialize (Hone Hraw). intros Hloop.
    assert (asks true (mkLocals ∅ false) = false →
            ∃ F, None = Some F ∧ raw_params F = Ok (params (mkLocals ∅ false)))
      as Hinv by (rewrite asks_fresh; done).
    destruct (read_loop_governed _ _ _ _ _ _ None _ _ _ Hinv Hloop)
      as (t & Ht & Hg).
    exists (probe ++ t). split; [rewrite Ht, Ht1, <- app_assoc; done |].
    split; [apply governed_app; by rewrite Hfp |].
    destruct filenames as [|f more]; [done |].
    destruct (read_loop_asks_first _ _ _ _ _ _ _ _ _ _ _ (asks_fresh false)
                Hloop) as (o & t' & Ht' & Ho).
    exists o. split; [| done]. rewrite Ht in Ht'.
    apply app_inv_head in Ht'. subst t. apply elem_of_app. right.
    apply elem_of_cons. by left.
  - destruct Hc as (_ & _ & title & Ht1 & ->). intros [= <- <-].
    eexists. split; [exact Ht1 |]. split.
    + apply governed_app. by rewrite Hfp.
    + eexists. split; [apply elem_of_app; right; by apply list_elem_of_singleton |].
      done.
  - destruct Hc as (_ & _ & title & F & st & Ht1 & HF & _ & ->).
    intros Hloop.
    destruct (read_loop_governed _ _ _ _ _ _ (Some (n_items F)) _ _ _
                (λ _, ex_intro _ _ (conj eq_refl HF)) Hloop)
      as (t & Ht & Hg).
    eexists. split; [rewrite Ht, Ht1, <- !app_assoc; done |]. split.
    + apply governed_app. rewrite Hfp. split; [done |]. simpl. done.
    + exists (mkObs (streams w) (EEdit nOpenParamForm title (Some F))).
      split; [| done]. apply elem_of_app. right. apply elem_of_cons.
      by left.
Qed.

(** With RAW decided false: no form, and every read is given the empty
    dictionary. *)
Lemma read_all_plain parent app_name tg filenames (w w2 : World Env) r :
  raw_decision filenames (env w) = false →
  read_all parent app_name tg filenames w = (r, w2) →
  ∃ t, trace w2 = trace w ++ t ∧ plain t.
Proof.
  intros Hraw. unfold read_all, bind.
  destruct (prepare filenames w) as [rp w1] eqn:Hp.
  destruct (prepare_cases _ _ _ _ Hp) as (Hs1 & probe & Hprobe & Hc).
  destruct (governed_probe None _ _ Hprobe) as (_ & _ & Hpp).
  destruct Hc as [(Ht1 & -> & _) | [[Hc _] | [Hc _]]]; [| congruence..].
  rewrite Hraw. intros Hloop.
  destruct (read_loop_plain _ _ _ _ _ (mkLocals ∅ false) _ _ _ eq_refl Hloop)
    as (t & Ht & Hpl).
  exists (probe ++ t). split; [rewrite Ht, Ht1, <- app_assoc; done |].
  by apply Forall_app.
Qed.

Lemma governed_reads cur t :
  governed cur t →
  Forall (λ o, ∀ f g ps r, call o = EImread f g ps r →
               ∃ m, ps = Some m ∧ m ≠ ∅) t.
Proof.
  revert cur. induction t as [|o t IH]; intros cur; simpl; [constructor |].
  destruct (call o) eqn:Eo; intros Hg; constructor; eauto;
    try (by intros ? ? ? ? E; rewrite Eo in E).
  - intros f1 g1 ps1 r1 E. rewrite Eo in E. injection E as <- <- <- <-.
    destruct Hg as [(F & m & _ & -> & Hm) _].
    exists m. split; [done |].
    destruct (raw_params_spec F) as (d & ps0 & _ & Hps & _ & _ & Hne).
    congruence.
  - by eapply IH, Hg.
Qed.

Lemma plain_reads t :
  plain t →
  Forall (λ o, ∀ f g ps r, call o = EImread f g ps r → ps = Some ∅) t
  ∧ ¬ ∃ o, o ∈ t ∧ is_edit (call o) = true.
Proof.
  intros Hp. split.
  - eapply Forall_impl; [exact Hp |]. intros o. simpl.
    destruct (call o); try done. by intros -> ? ? ? ? [= _ _ <- _].
  - intros (o & Ho & He). unfold plain in Hp. rewrite Forall_forall in Hp.
    specialize (Hp _ Ho). by destruct (call o).
Qed.

Lemma opens_trace_after_dialog parent basedir app_name to_grayscale dtype
    (w : World Env) filenames sel s v :
  getopenfilenames parent (tr "Open") basedir (get_filters "load" dtype None)
    (streams (hushed w)) (env w) = (Ok (filenames, sel), s, v) →
  ∃ w1 r w2,
    env w1 = v
    ∧ read_all parent app_name to_grayscale filenames w1 = (r, w2)
    ∧ exec_images_open_dialog parent basedir app_name to_grayscale dtype w
      = (r, w2)
    ∧ ∀ t, trace w2 = trace w1 ++ t →
           drop (S (length (trace w))) (trace w2) = t.
Proof.
  intros Hd. rewrite exec_images_open_dialog_eq, Hd.
  match goal with |- context [read_all _ _ _ _ ?w0] => set (w1 := w0) end.
  destruct (read_all parent app_name to_grayscale filenames w1)
    as [r w2] eqn:Hrun.
  exists w1, r, w2. split; [done |]. split; [done |]. split; [done |].
  intros t ->. subst w1. simpl.
  replace (S (length (trace w)))
    with (length (trace w ++ [mkObs (streams (hushed w))
            (EGetOpenFileNames parent (tr "Open") basedir
               (get_filters "load" dtype None) (Ok (filenames, sel)))]))
    by (rewrite length_app; simpl; lia).
  by rewrite drop_app_length.
Qed.

(** C6: in exec_images_open_dialog a raw-parameter form is presented if
    and only if at least one file was selected, the extension of the
    first selected filename is ".bin", ".raw", ".img" or ".imd", and no
    file with the name of that first file and the ".inf" extension
    exists.  The decision is made once, from the first file, and holds
    for every selected file: when it is taken, every read is given a
    dictionary filled from a form; when it is not, every read is given
    the empty dictionary, whatever the extension of the file read. *)
Theorem raw_form_iff_first_file parent basedir app_name to_grayscale dtype
    (w : World Env) filenames sel s v :
  getopenfilenames parent (tr "Open") basedir (get_filters "load" dtype None)
    (streams (hushed w)) (env w) = (Ok (filenames, sel), s, v) →
  let run :=
    exec_images_open_dialog parent basedir app_name to_grayscale dtype w in
  let t := drop (S (length (trace w))) (trace (snd run)) in
  let raw :=
    ∃ first more,
      filenames = first :: more
      ∧ snd (splitext first) ∈ [".bin"; ".raw"; ".img"; ".imd"]
      ∧ isfile (fst (splitext first) +:+ ".inf") v = false in
  ((∃ o, o ∈ t ∧ is_edit (call o) = true) ↔ raw)
  ∧ (raw →
     Forall (λ o, ∀ f g ps r, call o = EImread f g ps r →
                  ∃ m, ps = Some m ∧ m ≠ ∅) t)
  ∧ (¬ raw →
     Forall (λ o, ∀ f g ps r, call o = EImread f g ps r → ps = Some ∅) t).
Proof.
  intros Hd run t raw.
  destruct (opens_trace_after_dialog parent basedir app_name to_grayscale
              dtype w filenames sel s v Hd)
    as (w1 & r & w2 & Hv & Hall & Hrun & Hdrop).
  subst t run raw. rewrite Hrun. simpl snd.
  rewrite <- raw_decision_spec, <- Hv.
  destruct (raw_decision filenames (env w1)) eqn:Hraw.
  - destruct (read_all_raw _ _ _ _ _ _ _ Hraw Hall) as (t & Ht & Hg & Hshown).
    rewrite (Hdrop _ Ht). split; [done |]. split; [| done].
    intros _. by eapply governed_reads.
  - destruct (read_all_plain _ _ _ _ _ _ _ Hraw Hall) as (t & Ht & Hp).
    rewrite (Hdrop _ Ht). destruct (plain_reads _ Hp) as [Hreads Hnone].
    split; [split; [done | done] |]. split; [done |]. by intros _.
Qed.

Lemma form_after_no_edit cur t :
  Forall (λ o, is_edit (call o) = false) t → form_after cur t = cur.
Proof.
  induction 1 as [|o t Ho _ IH]; [done |].
  unfold form_after in *. simpl. revert Ho. by destruct (call o).
Qed.

(** C7: for every raw-parameter form accepted in
    exec_images_open_dialog, the params dictionary passed to io.imread
    while that form is the one accepted last holds, under offset, the
    m_offset of the form when its manual_switch is True and the name of
    its mode otherwise, and under dtype, the numpy dtype named by its
    dtype choice, with the byte order swapped exactly when its
    endian_switch is False. *)
Theorem raw_params_follow_form parent basedir app_name to_grayscale dtype
    (w : World Env) filenames sel s v t0 o_form t1 o t2 c title
    (F : nOpenParam) f g ps r :
  getopenfilenames parent (tr "Open") basedir (get_filters "load" dtype None)
    (streams (hushed w)) (env w) = (Ok (filenames, sel), s, v) →
  drop (S (length (trace w)))
    (trace (snd (exec_images_open_dialog parent basedir app_name
                   to_grayscale dtype w)))
  = t0 ++ o_form :: t1 ++ o :: t2 →
  call o_form = EEdit c title (Some F) →
  Forall (λ o1, is_edit (call o1) = false) t1 →
  call o = EImread f g ps r →
  ∃ d m,
    np_dtype (dtype_name (p_dtype F)) = Ok d
    ∧ ps = Some m
    ∧ m !! "offset"
      = Some (if p_manual_switch F then VInt (p_m_offset F)
              else VStr (mode_name (p_mode F)))
    ∧ m !! "dtype"
      = Some (VDtype (if p_endian_switch F then d else newbyteorder d)).
Proof.
  intros Hd Ht Hform Hquiet Hread.
  destruct (opens_trace_after_dialog parent basedir app_name to_grayscale
              dtype w filenames sel s v Hd)
    as (w1 & r0 & w2 & Hv & Hall & Hrun & Hdrop).
  rewrite Hrun in Ht. simpl snd in Ht.
  destruct (raw_decision filenames (env w1)) eqn:Hraw.
  - destruct (read_all_raw _ _ _ _ _ _ _ Hraw Hall) as (t & Ht' & Hg & _).
    rewrite (Hdrop _ Ht') in Ht. subst t.
    apply governed_app in Hg as [_ Hg]. simpl in Hg. rewrite Hform in Hg.
    apply governed_app in Hg as [_ Hg].
    rewrite (form_after_no_edit _ _ Hquiet) in Hg. simpl in Hg.
    rewrite Hread in Hg. destruct Hg as [(F' & m & [= <-] & -> & Hm) _].
    destruct (raw_params_spec F) as (d & ps & Hdt & Hps & Hoff & Hty & _).
    exists d, m. assert (m = ps) as -> by congruence. done.
  - destruct (read_all_plain _ _ _ _ _ _ _ Hraw Hall) as (t & Ht' & Hp).
    rewrite (Hdrop _ Ht') in Ht. subst t.
    destruct (plain_reads _ Hp) as [_ Hnone]. exfalso. apply Hnone.
    exists o_form. split; [| by rewrite Hform].
    apply elem_of_app. right. apply elem_of_cons. by left.
Qed.

End Facts.

(** ** Runs on the scripted host *)
Section Runs.
Import Script.

(** C1: with the save dialog accepted on a non-empty filename,
    exec_image_save_dialog is to call io.imwrite with that filename and
    the data array and to return the filename once the write succeeds.
    Run on a little-endian float64 array with the dialog accepted on
    "/tmp/scan.png", it makes no call to io.imwrite: reading [ext]
    raises NameError, the error box is shown and None is returned. *)
Theorem save_float_image_not_written :
  let run :=
    exec_image_save_dialog None float_image None "" None
      (start (picking ["/tmp/scan.png"] [] [])) in
  fst run = Ok None
  ∧ call <$> trace (snd run)
    = [EGetSaveFileName None "Save as" ""
         "Images (*.png *.tif *.dcm *.raw)" (Ok ("/tmp/scan.png", ""));
       EPrintExc (mkExn NameError "name 'ext' is not defined");
       ECritical None "Error"
         ("scan.png could not be written:" +:+ newline
          +:+ "name 'ext' is not defined")].
Proof. split; reflexivity. Qed.

(** C8: in exec_image_save_dialog the DICOM template is to be
    forwarded to io.imwrite as the "template" keyword whenever the
    extension of the chosen filename, lowercased, equals ".dcm".  Run
    on a little-endian float64 array with the dialog accepted on
    "/tmp/scan.dcm" and a template given, the keyword dictionary holds
    the template, but no call to io.imwrite is made, so the template is
    forwarded to nothing: reading [ext] raises NameError, the error box
    is shown and None is returned. *)
Theorem save_float_dcm_template_not_forwarded :
  let run :=
    exec_image_save_dialog None float_image (Some 7%nat) "" None
      (start (picking ["/tmp/scan.dcm"] [] [])) in
  lower (snd (splitext (Host := desk_host) "/tmp/scan.dcm")) = ".dcm"
  ∧ save_kwargs "/tmp/scan.dcm" (Some 7%nat) !! "template"
    = Some (VTemplate (Some 7%nat))
  ∧ fst run = Ok None
  ∧ imwrites (trace (snd run)) = []
  ∧ call <$> trace (snd run)
    = [EGetSaveFileName None "Save as" ""
         "Images (*.png *.tif *.dcm *.raw)" (Ok ("/tmp/scan.dcm", ""));
       EPrintExc (mkExn NameError "name 'ext' is not defined");
       ECritical None "Error"
         ("scan.dcm could not be written:" +:+ newline
          +:+ "name 'ext' is not defined")].
Proof. repeat split; reflexivity. Qed.

Lemma save_float_skips_imwrite_witness :
  fst (exec_image_save_dialog None float_image None "" None
         (start (picking ["/tmp/scan.png"] [] []))) = Ok None
  ∧ Forall (λ o, is_imwrite (call o) = false)
      (trace (snd (exec_image_save_dialog None float_image None "" None
                     (start (picking ["/tmp/scan.png"] [] []))))).
Proof.
  destruct (save_float_skips_imwrite None float_image None "" None
              (start (picking ["/tmp/scan.png"] [] []))
              (snd (choose_save_file None ""
                      (save_filters float_image None) console
                      (hushed (start (picking ["/tmp/scan.png"] [] [])))))
              "/tmp/scan.png" "" "scan.png could not be written:")
    as [_ (w2 & ds & Hrun & _ & _ & Hnone)].
  - right. reflexivity.
  - reflexivity.
  - discriminate.
  - reflexivity.
  - rewrite Hrun. split; [reflexivity | exact Hnone].
Defined.

Lemma save_failure_is_reported_witness :
  occurs_in "scan.png" "scan.png could not be written:"
  ∧ fst (exec_image_save_dialog None byte_image None "" (Some "viewer")
           (start (picking ["/tmp/scan.png"] [] ["/tmp/scan.png"])))
    = Ok None.
Proof.
  destruct (save_failure_is_reported None byte_image None ""
              (Some "viewer")
              (start (picking ["/tmp/scan.png"] [] ["/tmp/scan.png"]))
              (snd (choose_save_file None ""
                      (save_filters byte_image None) console
                      (hushed (start (picking ["/tmp/scan.png"] []
                                        ["/tmp/scan.png"])))))
              (snd (write_attempt "/tmp/scan.png" byte_image
                      (save_kwargs "/tmp/scan.png" None) false
                      (snd (choose_save_file None ""
                              (save_filters byte_image None) console
                              (hushed (start (picking ["/tmp/scan.png"] []
                                                ["/tmp/scan.png"])))))))
              "/tmp/scan.png" "" (mkExn OSError "cannot write")
              "scan.png could not be written:")
    as [Hocc (w3 & Hrun & _)].
  - reflexivity.
  - discriminate.
  - reflexivity.
  - reflexivity.
  - reflexivity.
  - split; [exact Hocc | by rewrite Hrun].
Defined.

Lemma save_template_iff_dcm_witness :
  save_kwargs "/tmp/scan.DCM" (Some 7%nat) !! "template"
  = Some (VTemplate (Some 7%nat))
  ∧ lower (snd (splitext "/tmp/scan.DCM")) = ".dcm".
Proof.
  destruct (save_template_iff_dcm None byte_image (Some 7%nat) "" None
              (start (picking ["/tmp/scan.DCM"] [] []))
              (snd (exec_image_save_dialog None byte_image (Some 7%nat) ""
                      None (start (picking ["/tmp/scan.DCM"] [] []))))
              (Ok (Some "/tmp/scan.DCM")) console "/tmp/scan.DCM"
              byte_image (save_kwargs "/tmp/scan.DCM" (Some 7%nat)) (Ok tt))
    as ([_ Hfwd] & _ & _ & _).
  - reflexivity.
  - apply list_elem_of_further, list_elem_of_here.
  - split; [apply Hfwd |]; reflexivity.
Defined.

Lemma open_reads_or_reports_witness :
  exec_image_open_dialog None "" None true None
    (start (picking ["/tmp/scan.png"] [] []))
  = (Ok (Some ("/tmp/scan.png", sample)),
     mkWorld console (mkDesk [] None [] [] [] [])
       [mkObs (mkStreams (Some 0%nat) None (Some 2%nat))
          (EGetOpenFileName None "Open" ""
             "Images (*.png *.tif *.dcm *.raw)" (Ok ("/tmp/scan.png", "")));
        mkObs console (EImread "/tmp/scan.png" true None (Ok sample))]).
Proof.
  destruct (open_reads_or_reports None "" None true None
              (start (picking ["/tmp/scan.png"] [] []))
              "/tmp/scan.png" "" (mkStreams (Some 0%nat) None (Some 2%nat))
              (mkDesk [] None [] [] [] []))
    as [Hok _].
  - reflexivity.
  - apply (Hok sample (mkDesk [] None [] [] [] [])). reflexivity.
Defined.

Lemma open_cancel_still_reads_witness :
  mkObs console
    (EImread "" true None (Raise (mkExn OSError "cannot read")))
    ∈ trace (snd (exec_image_open_dialog None "" None true None
                    (start (mkDesk [] None [] [] [] []))))
  ∧ fst (exec_image_open_dialog None "" None true None
           (start (mkDesk [] None [] [] [] []))) = Ok None.
Proof.
  destruct (open_cancel_still_reads None "" None true None
              (start (mkDesk [] None [] [] [] [])) ""
              (mkStreams (Some 0%nat) None (Some 2%nat))
              (mkDesk [] None [] [] [] []))
    as [Hread Hfail].
  - reflexivity.
  - split; [exact Hread |].
    apply (Hfail (mkExn OSError "cannot read") (mkDesk [] None [] [] [] [])
             " could not be opened:"); reflexivity.
Defined.

Lemma opens_yields_in_order_witness :
  served None None ["a.raw"; "b.png"; "c.raw"]
    (drop 1
       (trace (snd (exec_images_open_dialog None "" None true None
                      (start (picking ["a.raw"; "b.png"; "c.raw"]
                                [Some form_512] ["c.raw"]))))))
    (fst (exec_images_open_dialog None "" None true None
            (start (picking ["a.raw"; "b.png"; "c.raw"]
                      [Some form_512] ["c.raw"])))).
Proof.
  apply (opens_yields_in_order None "" None true None
           (start (picking ["a.raw"; "b.png"; "c.raw"]
                     [Some form_512] ["c.raw"]))
           ["a.raw"; "b.png"; "c.raw"] ""
           (mkStreams (Some 0%nat) None (Some 2%nat))
           (mkDesk [] None [Some form_512] [] ["c.raw"] [])).
  - reflexivity.
  - discriminate.
Defined.

Lemma raw_form_iff_first_file_witness :
  ∃ o, o ∈ drop 1
             (trace (snd (exec_images_open_dialog None "" None true None
                            (start (picking ["a.raw"; "b.png"; "c.raw"]
                                      [Some form_512] ["c.raw"])))))
       ∧ is_edit (call o) = true.
Proof.
  destruct (raw_form_iff_first_file None "" None true None
              (start (picking ["a.raw"; "b.png"; "c.raw"]
                        [Some form_512] ["c.raw"]))
              ["a.raw"; "b.png"; "c.raw"] ""
              (mkStreams (Some 0%nat) None (Some 2%nat))
              (mkDesk [] None [Some form_512] [] ["c.raw"] []))
    as [[_ Hshown] _].
  - reflexivity.
  - apply Hshown. exists "a.raw", ["b.png"; "c.raw"].
    split; [reflexivity |]. split; [| reflexivity].
    apply list_elem_of_further, list_elem_of_here.
Defined.

Lemma raw_params_follow_form_witness :
  ∃ d m,
    np_dtype (H := desk_host) "uint16" = Ok d
    ∧ Some params_512 = Some m
    ∧ m !! "offset" = Some (VInt 512)
    ∧ m !! "dtype" = Some (VDtype (newbyteorder d)).
Proof.
  apply (raw_params_follow_form None "" None true None
           (start (picking ["a.raw"; "b.raw"] [Some form_512] []))
           ["a.raw"; "b.raw"] ""
           (mkStreams (Some 0%nat) None (Some 2%nat))
           (mkDesk [] None [Some form_512] [] [] [])
           [mkObs console (EIsFile "a.inf" false)]
           (mkObs console
              (EEdit nOpenParamForm "Open Raw Images" (Some form_512)))
           [mkObs console (EImread "a.raw" true (Some params_512) (Ok sample));
            mkObs console (EYield "a.raw" sample)]
           (mkObs console (EImread "b.raw" true (Some params_512) (Ok sample)))
           [mkObs console (EYield "b.raw" sample)]
           nOpenParamForm "Open Raw Images" form_512
           "b.raw" true (Some params_512) (Ok sample)).
  - reflexivity.
  - reflexivity.
  - reflexivity.
  - by repeat constructor.
  - reflexivity.
Defined.

Lemma streams_restored_on_return_witness :
  restored
    (start (mkDesk [Ok (["/tmp/scan.png"], "")]
              (Some (mkStreams None None None)) [] [] [] []))
    (snd (exec_image_open_dialog None "" None true None
            (start (mkDesk [Ok (["/tmp/scan.png"], "")]
                      (Some (mkStreams None None None)) [] [] [] [])))).
Proof.
  destruct (streams_restored_on_return (Env := Desk)) as (_ & Hopen & _).
  apply (Hopen None "" None true None _ _ (Some ("/tmp/scan.png", sample))).
  reflexivity.
Defined.

(** A form accepted before the loop with [one4all] unticked is shown
    again for the first file: the dictionaries read with are those of
    the forms accepted in the loop. *)
Example unticked_form_is_asked_again :
  call <$> drop 1
             (trace (snd (exec_images_open_dialog None "" None true None
                            (start (picking ["a.raw"; "b.raw"]
                                      [Some form_512_each; Some form_auto;
                                       Some form_512] [])))))
  = [EIsFile "a.inf" false;
     EEdit nOpenParamForm "Open Raw Images" (Some form_512_each);
     EEdit nOpenParamForm "Open Raw Images" (Some form_auto);
     EImread "a.raw" true
       (Some (<["offset" := VStr "auto"]>
                (<["dtype" := VDtype (mkDtype LittleEndian "i" 4)]> ∅)))
       (Ok sample);
     EYield "a.raw" sample;
     EEdit nOpenParamForm "Open Raw Images" (Some form_512);
     EImread "b.raw" true (Some params_512) (Ok sample);
     EYield "b.raw" sample].
Proof. reflexivity. Qed.

End Runs.

(** ** Further facts: the save dialog *)
Section Further.
Context {Env : Type} `{Host Env}.

Local Abbreviation IO := (M (World Env)).

Lemma imwrites_app t1 t2 : imwrites (t1 ++ t2) = imwrites t1 ++ imwrites t2.
Proof. apply omap_app. Qed.

Lemma imwrites_dialogs t :
  Forall (λ o, is_save_dialog (call o) = true) t → imwrites t = [].
Proof.
  induction 1 as [|o t Ho _ IH]; [done |].
  change (o :: t) with ([o] ++ t).
  rewrite imwrites_app, IH, app_nil_r. unfold imwrites. simpl. revert Ho.
  by destruct (call o).
Qed.

Lemma imwrites_aftermath t : aftermath t → imwrites t = [].
Proof.
  induction 1 as [|o t Ho _ IH]; [done |].
  change (o :: t) with ([o] ++ t).
  rewrite imwrites_app, IH, app_nil_r. unfold imwrites. simpl. revert Ho.
  by destruct (call o).
Qed.

(** What the handler of a failed write leaves, whether or not its
    template formats; it never answers with a filename. *)
Lemma write_failed_cases parent app_name filename msg (w w2 : World Env) r :
  write_failed parent app_name filename msg w = (r, w2) →
  streams w2 = streams w
  ∧ (r = Ok None ∨ ∃ e2, r = Raise e2)
  ∧ ∃ th, trace w2 = trace w ++ th ∧ aftermath th.
Proof.
  destruct (pct (tr "%s could not be written:") (basename filename))
    as [head|e2] eqn:Hfmt.
  - destruct (write_failed_run parent app_name filename msg head w Hfmt)
      as (w3 & -> & Hs & Ht).
    intros [= <- <-]. split; [done |]. split; [by left |].
    eexists. split; [exact Ht |]. by repeat constructor.
  - unfold write_failed, report, bind, call_print_exc, lift, record.
    simpl. rewrite Hfmt. intros [= <- <-]. split; [done |].
    split; [right; by eexists |]. eexists. split; [done |].
    by repeat constructor.
Qed.

(** Every way a run of the save dialog can go, with the records it
    leaves: the dialog call or calls [ds], then nothing, or the records
    of the handler, or one call to [io.imwrite] and then perhaps the
    records of the handler. *)
Lemma save_run_shape parent data template basedir app_name
    (w w2 : World Env) r :
  exec_image_save_dialog parent data template basedir app_name w = (r, w2) →
  ∃ ds,
    Forall (λ o, is_save_dialog (call o) = true) ds
    ∧ ((trace w2 = trace w ++ ds ∧ (r = Ok None ∨ ∃ e, r = Raise e))
       ∨ (∃ th,
            is_float_le data = true
            ∧ trace w2 = trace w ++ ds ++ th ∧ aftermath th
            ∧ (r = Ok None ∨ ∃ e, r = Raise e))
       ∨ (∃ s fn res th,
            is_float_le data = false
            ∧ fn ≠ ""
            ∧ trace w2
              = trace w ++ ds
                ++ mkObs s (EImwrite fn data (save_kwargs fn template) res)
                   :: th
            ∧ aftermath th
            ∧ match res with
              | Ok _ => th = [] ∧ r = Ok (Some fn)
              | Raise _ => r = Ok None ∨ ∃ e, r = Raise e
              end)).
Proof.
  rewrite exec_image_save_dialog_eq.
  destruct (choose_save_file _ _ _ _ _) as [[[fn sel]|e] w1] eqn:Hc;
    destruct (choose_save_file_spec _ _ _ _ _ _ _ Hc)
      as (e1 & ds & Ht1 & Hds & _);
    change (trace (hushed w)) with (trace w) in Ht1.
  2:{ intros [= <- <-]. eexists. split; [exact Hds |]. left.
      split; [done |]. right. by eexists. }
  destruct (nonempty fn) eqn:Hne.
  2:{ intros [= <- <-]. eexists. split; [exact Hds |]. left.
      split; [done |]. by left. }
  assert (fn ≠ "") as Hfn.
  { intros ->. discriminate Hne. }
  unfold try_except. destruct (is_float_le data) eqn:Hf.
  - rewrite write_attempt_float. simpl. intros Hh.
    destruct (write_failed_cases _ _ _ _ _ _ _ Hh) as (_ & Hr & th & Ht & Hth).
    eexists. split; [exact Hds |]. right. left. exists th.
    split; [done |]. split; [by rewrite Ht, Ht1, <- app_assoc |]. done.
  - rewrite write_attempt_direct.
    destruct (imwrite fn data (save_kwargs fn template) (env w1))
      as [[[]|e] v]; simpl.
    + intros [= <- <-]. eexists. split; [exact Hds |]. right. right.
      exists (streams w1), fn, (Ok tt), []. simpl.
      split; [done |]. split; [done |].
      split; [by rewrite Ht1, <- app_assoc |]. split; [constructor | done].
    + destruct (isinstance_Exception e).
      * intros Hh.
        destruct (write_failed_cases _ _ _ _ _ _ _ Hh)
          as (_ & Hr & th & Ht & Hth).
        eexists. split; [exact Hds |]. right. right.
        exists (streams w1), fn, (Raise e), th.
        split; [done |]. split; [done |].
        split; [simpl in Ht; by rewrite Ht, Ht1, <- !app_assoc |]. done.
      * intros [= <- <-]. eexists. split; [exact Hds |]. right. right.
        exists (streams w1), fn, (Raise e), []. simpl.
        split; [done |]. split; [done |].
        split; [by rewrite Ht1, <- app_assoc |]. split; [constructor |].
        right. by eexists.
Qed.

Lemma save_kwargs_only_template filename template key :
  key ≠ "template" → save_kwargs filename template !! key = None.
Proof.
  intros Hk. unfold save_kwargs. destruct (String.eqb _ _); [| done].
  rewrite lookup_insert_ne by done. done.
Qed.

(** X1: when the save dialog is cancelled and so answers the empty
    string, exec_image_save_dialog returns None at once: the only calls
    made are those of the dialog; nothing is written, no traceback is
    printed and no message box is shown. *)
Theorem save_cancelled_is_silent parent data template basedir app_name
    (w w1 : World Env) sel :
  choose_save_file parent basedir (save_filters data template)
    (streams w) (hushed w) = (Ok ("", sel), w1) →
  exec_image_save_dialog parent data template basedir app_name w
  = (Ok None, w1)
  ∧ streams w1 = streams w
  ∧ Forall (λ o, is_save_dialog (call o) = true)
      (drop (length (trace w)) (trace w1)).
Proof.
  intros Hc. rewrite exec_image_save_dialog_eq, Hc.
  change (nonempty "") with false. cbv iota. split; [done |].
  destruct (choose_save_file_spec _ _ _ _ _ _ _ Hc)
    as (e1 & ds & Ht1 & Hds & Hok).
  destruct (Hok _ eq_refl) as [Hs1 _]. split; [done |].
  change (trace (hushed w)) with (trace w) in Ht1.
  by rewrite Ht1, drop_app_length.
Qed.

(** X4: exec_image_save_dialog calls io.imwrite at most once, only for
    an array that is not little-endian float, on the array as given and
    with no keyword other than "template": the "max_range" and "dtype"
    keywords of the converting call are never passed. *)
Theorem save_never_converts parent data template basedir app_name
    (w : World Env) :
  let run :=
    exec_image_save_dialog parent data template basedir app_name w in
  let t := drop (length (trace w)) (trace (snd run)) in
  (length (imwrites t) ≤ 1)%nat
  ∧ ∀ fn d kw,
      (fn, d, kw) ∈ imwrites t →
      is_float_le data = false ∧ d = data
      ∧ ∀ key, key ≠ "template" → kw !! key = None.
Proof.
  intros run t. subst t run.
  destruct (exec_image_save_dialog parent data template basedir app_name w)
    as [r w2] eqn:Hrun. simpl snd.
  destruct (save_run_shape _ _ _ _ _ _ _ _ Hrun) as (ds & Hds & Hshape).
  pose proof (imwrites_dialogs _ Hds) as Hnone.
  destruct Hshape as [[Ht _] | [Hshape | Hshape]].
  - rewrite Ht, drop_app_length, Hnone. split; [simpl; lia |].
    intros ? ? ? Hin. by apply elem_of_nil in Hin.
  - destruct Hshape as (th & _ & Ht & Hth & _).
    rewrite Ht, drop_app_length, imwrites_app, Hnone,
      (imwrites_aftermath _ Hth).
    split; [simpl; lia |]. intros ? ? ? Hin. by apply elem_of_nil in Hin.
  - destruct Hshape as (s & fn & res & th & Hf & _ & Ht & Hth & _).
    rewrite Ht, drop_app_length, imwrites_app, Hnone. simpl.
    unfold imwrites at 1 2. simpl. fold (imwrites th).
    rewrite (imwrites_aftermath _ Hth). split; [simpl; lia |].
    intros fn' d kw Hin. apply list_elem_of_singleton in Hin.
    injection Hin as -> -> ->. split; [done |]. split; [done |].
    intros key Hk. by apply save_kwargs_only_template.
Qed.

(** X12: exec_image_save_dialog returns a filename only after
    io.imwrite has been called on that filename with the given array
    and has succeeded, that call being the last one made. *)
Theorem save_filename_only_after_write parent data template basedir
    app_name (w w2 : World Env) filename :
  exec_image_save_dialog parent data template basedir app_name w
  = (Ok (Some filename), w2) →
  ∃ s,
    last (trace w2)
    = Some (mkObs s
              (EImwrite filename data (save_kwargs filename template)
                 (Ok tt))).
Proof.
  intros Hrun.
  destruct (save_run_shape _ _ _ _ _ _ _ _ Hrun) as (ds & Hds & Hshape).
  destruct Hshape as [[_ Hr] | [Hshape | Hshape]].
  - by destruct Hr as [? | [? ?]].
  - destruct Hshape as (th & _ & _ & _ & Hr). by destruct Hr as [? | [? ?]].
  - destruct Hshape as (s & fn & res & th & _ & _ & Ht & _ & Hres).
    destruct res as [[]|e].
    + destruct Hres as [-> [= ->]]. exists s.
      by rewrite Ht, app_assoc, last_snoc.
    + by destruct Hres as [? | [? ?]].
Qed.

Lemma app_same_nil {A} (l t : list A) : l = l ++ t → t = [].
Proof. intros E. apply (app_inv_head l). by rewrite app_nil_r. Qed.

(** The part of the save dialog after the dialog phase is calm. *)
Lemma calm_save_rest (P : Event → Prop) parent data template app_name fn :
  (∀ r, P (EImwrite fn data (save_kwargs fn template) r)) →
  (∀ e, P (EPrintExc e)) →
  (∀ title text, P (ECritical parent title text)) →
  calm (Env := Env) P
    (if nonempty fn
     then try_except
            (write_attempt fn data (save_kwargs fn template)
               (is_float_le data))
            isinstance_Exception (write_failed parent app_name fn)
     else ret None).
Proof.
  intros HW HX HC. destruct (nonempty fn); [| apply calm_ret].
  apply calm_try; [by apply calm_write_attempt |].
  intros msg. unfold write_failed.
  apply calm_bind; [by apply calm_report | intros _; apply calm_ret].
Qed.

Lemma save_rest_run parent data template basedir app_name (w w1 : World Env)
    fn sel :
  choose_save_file parent basedir (save_filters data template)
    (streams w) (hushed w) = (Ok (fn, sel), w1) →
  exec_image_save_dialog parent data template basedir app_name w
  = (if nonempty fn
     then try_except
            (write_attempt fn data (save_kwargs fn template)
               (is_float_le data))
            isinstance_Exception (write_failed parent app_name fn)
     else ret None) w1.
Proof.
  intros Hc. rewrite exec_image_save_dialog_eq, Hc. by destruct (nonempty fn).
Qed.

(** The dialog phase when the first call raises [TypeError]. *)
Lemma choose_save_file_retry parent basedir filters saved (w0 : World Env)
    e s1 v1 :
  getsavefilename parent (tr "Save as") basedir filters (streams w0) (env w0)
  = (Raise e, s1, v1) →
  isinstance_TypeError e = true →
  choose_save_file parent basedir filters saved w0
  = (fst (fst (getsavefilename parent (tr "Save as") "" filters s1 v1)),
     mkWorld
       (match fst (fst (getsavefilename parent (tr "Save as") "" filters
                          s1 v1)) with
        | Ok _ => saved
        | Raise _ =>
            snd (fst (getsavefilename parent (tr "Save as") "" filters s1 v1))
        end)
       (snd (getsavefilename parent (tr "Save as") "" filters s1 v1))
       (trace w0
        ++ [mkObs (streams w0)
              (EGetSaveFileName parent (tr "Save as") basedir filters
                 (Raise e));
            mkObs s1
              (EGetSaveFileName parent (tr "Save as") "" filters
                 (fst (fst (getsavefilename parent (tr "Save as") ""
                              filters s1 v1))))])).
Proof.
  intros H1 He.
  unfold choose_save_file, try_except, bind, call_getsavefilename,
    set_streams, ret, record. simpl. rewrite H1. simpl. rewrite He. simpl.
  destruct (getsavefilename parent (tr "Save as") "" filters s1 v1)
    as [[[x2|e2] s2] v2]; simpl; by rewrite <- app_assoc.
Qed.

(** X2: when the first call of the save dialog raises TypeError,
    exec_image_save_dialog calls the dialog a second time with an empty
    base directory and the same caption and filters, and goes by the
    answer of that second call.  An exception it raises is raised by
    the function.  A filename it answers is the one the function
    carries on with, the saved streams being back in place: the run is
    the write and its handler on that filename, so an empty answer
    gives None at once, and an array that is not little-endian float is
    handed to io.imwrite under that filename, which is returned when
    the write succeeds. *)
Theorem save_retries_without_basedir parent data template basedir app_name
    (w : World Env) e s1 v1 :
  getsavefilename parent (tr "Save as") basedir (save_filters data template)
    (streams (hushed w)) (env w) = (Raise e, s1, v1) →
  isinstance_TypeError e = true →
  let second :=
    getsavefilename parent (tr "Save as") "" (save_filters data template)
      s1 v1 in
  let asked :=
    [mkObs (streams (hushed w))
       (EGetSaveFileName parent (tr "Save as") basedir
          (save_filters data template) (Raise e));
     mkObs s1
       (EGetSaveFileName parent (tr "Save as") ""
          (save_filters data template) (fst (fst second)))] in
  let run :=
    exec_image_save_dialog parent data template basedir app_name w in
  ∃ rest,
    trace (snd run) = trace w ++ asked ++ rest
    ∧ Forall (λ o, is_dialog (call o) = false) rest
    ∧ match fst (fst second) with
      | Ok (fn, _) =>
          streams (snd run) = streams w
          ∧ run
            = (if nonempty fn
               then try_except
                      (write_attempt fn data (save_kwargs fn template)
                         (is_float_le data))
                      isinstance_Exception
                      (write_failed parent app_name fn)
               else ret None)
                (mkWorld (streams w) (snd second) (trace w ++ asked))
          ∧ (fn = "" → fst run = Ok None ∧ rest = [])
          ∧ (fn ≠ "" → is_float_le data = false →
             ∀ v3,
               imwrite fn data (save_kwargs fn template) (snd second)
               = (Ok tt, v3) →
               fst run = Ok (Some fn)
               ∧ rest
                 = [mkObs (streams w)
                      (EImwrite fn data (save_kwargs fn template) (Ok tt))])
      | Raise e2 =>
          fst run = Raise e2 ∧ rest = []
          ∧ streams (snd run) = snd (fst second)
      end.
Proof.
  intros H1 He second asked run. subst run asked.
  pose proof (choose_save_file_retry parent basedir
                (save_filters data template) (streams w) (hushed w)
                e s1 v1 H1 He) as Hc.
  fold second in Hc. change (trace (hushed w)) with (trace w) in Hc.
  destruct (fst (fst second)) as [[fn sel]|e2].
  - rewrite (save_rest_run _ _ _ _ _ _ _ _ _ Hc).
    match goal with |- context [?m (mkWorld ?a ?b ?c)] =>
      destruct (m (mkWorld a b c)) as [r w2] eqn:Hrun;
      pose proof (calm_save_rest (λ ev, is_dialog ev = false) parent data
                    template app_name fn (λ _, eq_refl) (λ _, eq_refl)
                    (λ _ _, eq_refl) _ _ _ Hrun) as (Hs & t & Ht & HP)
    end.
    simpl in Hs, Ht. exists t. simpl snd. simpl fst.
    split; [by rewrite Ht, <- app_assoc |].
    split; [eapply Forall_impl; [exact HP |]; by intros o [_ ?] |].
    split; [done |]. split; [done |]. split.
    + intros ->. revert Hrun Ht.
      change (nonempty "") with false. cbv iota. intros [= <- <-] Ht.
      split; [done |]. by apply app_same_nil in Ht.
    + intros Hne Hf v3 Hw. revert Hrun Ht.
      rewrite (nonempty_true _ Hne), Hf. unfold try_except.
      rewrite write_attempt_direct. cbn [env streams trace].
      rewrite Hw. simpl. intros [= <- <-] Ht.
      split; [done |]. simpl in Ht. by apply app_inv_head in Ht.
  - rewrite exec_image_save_dialog_eq, Hc. simpl. exists [].
    split; [done |]. split; [constructor | done].
Qed.

(** X3: when the file dialog itself raises (for the save dialog, an
    exception other than TypeError), each of the three functions raises
    that exception at once and does not put the saved streams back: the
    standard streams stay as the dialog call left them, so sys.stdout
    stays None unless the dialog rebound it. *)
Theorem dialog_failure_leaves_streams :
  (∀ parent data template basedir app_name (w : World Env) e s v,
     getsavefilename parent (tr "Save as") basedir
       (save_filters data template) (streams (hushed w)) (env w)
     = (Raise e, s, v) →
     isinstance_TypeError e = false →
     exec_image_save_dialog parent data template basedir app_name w
     = (Raise e,
        mkWorld s v
          (trace w
           ++ [mkObs (streams (hushed w))
                 (EGetSaveFileName parent (tr "Save as") basedir
                    (save_filters data template) (Raise e))])))
  ∧ (∀ parent basedir app_name to_grayscale dtype (w : World Env) e s v,
       getopenfilename parent (tr "Open") basedir
         (get_filters "load" dtype None) (streams (hushed w)) (env w)
       = (Raise e, s, v) →
       exec_image_open_dialog parent basedir app_name to_grayscale dtype w
       = (Raise e,
          mkWorld s v
            (trace w
             ++ [mkObs (streams (hushed w))
                   (EGetOpenFileName parent (tr "Open") basedir
                      (get_filters "load" dtype None) (Raise e))])))
  ∧ (∀ parent basedir app_name to_grayscale dtype (w : World Env) e s v,
       getopenfilenames parent (tr "Open") basedir
         (get_filters "load" dtype None) (streams (hushed w)) (env w)
       = (Raise e, s, v) →
       exec_images_open_dialog parent basedir app_name to_grayscale dtype w
       = (Raise e,
          mkWorld s v
            (trace w
             ++ [mkObs (streams (hushed w))
                   (EGetOpenFileNames parent (tr "Open") basedir
                      (get_filters "load" dtype None) (Raise e))]))).
Proof.
  split; [| split].
  - intros parent data template basedir app_name w e s v H1 He.
    rewrite exec_image_save_dialog_eq.
    unfold choose_save_file, try_except, bind, call_getsavefilename,
      set_streams, ret, record.
    change (env (hushed w)) with (env w).
    change (trace (hushed w)) with (trace w).
    rewrite H1. cbv beta iota. by rewrite He.
  - intros parent basedir app_name tg dtype w e s v H1.
    by rewrite exec_image_open_dialog_eq, H1.
  - intros parent basedir app_name tg dtype w e s v H1.
    by rewrite exec_images_open_dialog_eq, H1.
Qed.

(** X6: once the file dialog has answered, each of the three functions
    leaves the three standard streams as they were at entry however it
    ends: on a normal return and also when an exception escapes it
    later (one that except Exception does not catch, or one raised in
    the handler). *)
Theorem streams_restored_once_answered :
  (∀ parent data template basedir app_name (w w1 : World Env) x,
     choose_save_file parent basedir (save_filters data template)
       (streams w) (hushed w) = (Ok x, w1) →
     streams (snd (exec_image_save_dialog parent data template basedir
                     app_name w))
     = streams w)
  ∧ (∀ parent basedir app_name to_grayscale dtype (w : World Env) x s v,
       getopenfilename parent (tr "Open") basedir
         (get_filters "load" dtype None) (streams (hushed w)) (env w)
       = (Ok x, s, v) →
       streams (snd (exec_image_open_dialog parent basedir app_name
                       to_grayscale dtype w))
       = streams w)
  ∧ (∀ parent basedir app_name to_grayscale dtype (w : World Env) x s v,
       getopenfilenames parent (tr "Open") basedir
         (get_filters "load" dtype None) (streams (hushed w)) (env w)
       = (Ok x, s, v) →
       streams (snd (exec_images_open_dialog parent basedir app_name
                       to_grayscale dtype w))
       = streams w).
Proof.
  split; [| split].
  - intros parent data template basedir app_name w w1 [fn sel] Hc.
    rewrite (save_rest_run _ _ _ _ _ _ _ _ _ Hc).
    destruct (choose_save_file_spec _ _ _ _ _ _ _ Hc)
      as (e1 & ds & _ & _ & Hok).
    destruct (Hok _ eq_refl) as [Hs1 _].
    match goal with |- streams (snd (?m w1)) = _ =>
      destruct (m w1) as [r w2] eqn:Hrun;
      pose proof (calm_save_rest (λ _, True) parent data template app_name
                    fn (λ _, I) (λ _, I) (λ _ _, I) _ _ _ Hrun) as (Hs & _)
    end.
    simpl. congruence.
  - intros parent basedir app_name tg dtype w [fn sel] s v Hd.
    rewrite exec_image_open_dialog_eq, Hd.
    match goal with |- streams (snd (?m ?w1)) = _ =>
      destruct (m w1) as [r w2] eqn:Hrun
    end.
    eapply (calm_try (λ _, True)) in Hrun as [Hs _]; [exact Hs | |].
    + apply calm_bind; [by apply calm_imread | intros ?; apply calm_ret].
    + intros e. by apply calm_open_failed.
  - intros parent basedir app_name tg dtype w [fns sel] s v Hd.
    rewrite exec_images_open_dialog_eq, Hd.
    match goal with |- streams (snd (?m ?w1)) = _ =>
      destruct (m w1) as [r w2] eqn:Hrun
    end.
    by eapply (calm_read_all (λ _, True)) in Hrun as [Hs _].
Qed.

(** X7: when no file is selected, exec_images_open_dialog makes no call
    after the dialog (no probe of the file system, no form, no read, no
    message box), yields nothing and ends normally, with the streams
    restored. *)
Theorem opens_empty_selection_is_silent parent basedir app_name to_grayscale
    dtype (w : World Env) sel s v :
  getopenfilenames parent (tr "Open") basedir (get_filters "load" dtype None)
    (streams (hushed w)) (env w) = (Ok ([], sel), s, v) →
  exec_images_open_dialog parent basedir app_name to_grayscale dtype w
  = (Ok tt,
     mkWorld (streams w) v
       (trace w
        ++ [mkObs (streams (hushed w))
              (EGetOpenFileNames parent (tr "Open") basedir
                 (get_filters "load" dtype None) (Ok ([], sel)))])).
Proof.
  intros Hd. by rewrite exec_images_open_dialog_eq, Hd.
Qed.

(** ** Further facts: the forms and the probe of exec_images_open_dialog *)

Lemma probes_app t1 t2 : probes (t1 ++ t2) = probes t1 ++ probes t2.
Proof. apply omap_app. Qed.

Lemma forms_shown_app t1 t2 :
  forms_shown (t1 ++ t2) = forms_shown t1 ++ forms_shown t2.
Proof. apply omap_app. Qed.

(** Records that satisfy [P], none of which is of the kind [pick]
    selects, give nothing under [omap pick]. *)
Lemma omap_none {B} (pick : Obs → option B) (P : Obs → Prop) t :
  (∀ o, P o → pick o = None) → Forall P t → omap pick t = [].
Proof.
  intros HP. induction 1 as [|o t Ho _ IH]; [done |].
  change (o :: t) with ([o] ++ t). rewrite omap_app, IH, app_nil_r.
  simpl. by rewrite (HP _ Ho).
Qed.

Lemma calm_ask_params_kind (P : Event → Prop) count st :
  (∀ r, P (EEdit (if (1 <? count)%nat then nOpenParamForm else OpenParamForm)
             (tr (if (1 <? count)%nat then "Open Raw Images"
                  else "Open Raw Image")) r)) →
  calm (Env := Env) P (ask_params count st).
Proof.
  intros HP. unfold ask_params. destruct (1 <? count)%nat.
  - apply calm_bind; [by apply calm_edit_nOpenParam |].
    intros [F|]; [| apply calm_ret].
    apply calm_bind; [apply calm_lift | intros ?; apply calm_ret].
  - apply calm_bind; [by apply calm_edit_OpenParam |].
    intros [F|]; [| apply calm_ret].
    apply calm_bind; [apply calm_lift | intros ?; apply calm_ret].
Qed.

Lemma calm_read_loop_kind (P : Event → Prop) parent app_name count RAW tg
    st rest :
  (∀ r, P (EEdit (if (1 <? count)%nat then nOpenParamForm else OpenParamForm)
             (tr (if (1 <? count)%nat then "Open Raw Images"
                  else "Open Raw Image")) r)) →
  (∀ f ps r, P (EImread f tg ps r)) →
  (∀ e, P (EPrintExc e)) →
  (∀ title text, P (ECritical parent title text)) →
  (∀ f d, P (EYield f d)) →
  calm (Env := Env) P (read_loop parent app_name count RAW tg st rest).
Proof.
  intros HE HR HX HC HY. revert st.
  induction rest as [|f rest IH]; intros st; simpl; [apply calm_ret |].
  apply calm_bind.
  - apply calm_try; [| intros e; by apply calm_open_failed].
    unfold read_one. destruct (splitext f) as [_base ext].
    apply calm_bind.
    + destruct RAW; [| apply calm_ret].
      destruct (_ || _); [by apply calm_ask_params_kind | apply calm_ret].
    + intros [st1|]; [| apply calm_ret].
      apply calm_bind; [by apply calm_imread | intros ?; apply calm_ret].
  - intros [[st1 d]|]; [| apply calm_ret].
    apply calm_bind; [by apply calm_yield | intros _; apply IH].
Qed.

Lemma calm_prepare_kind (P : Event → Prop) filenames :
  (∀ path r, P (EIsFile path r)) →
  ((1 < length filenames)%nat →
   ∀ r, P (EEdit nOpenParamForm (tr "Open Raw Images") r)) →
  calm (Env := Env) P (prepare filenames).
Proof.
  intros HF HE. unfold prepare. destruct filenames as [|first more];
    [apply calm_ret |].
  destruct (splitext first) as [_base ext].
  apply calm_bind.
  - destruct (is_raw_ext ext); [| apply calm_ret].
    apply calm_bind; [by apply calm_isfile | intros ?; apply calm_ret].
  - intros [|]; [| apply calm_ret].
    destruct (1 <? length (first :: more))%nat eqn:Hmany; [| apply calm_ret].
    apply Nat.ltb_lt in Hmany.
    apply calm_bind; [apply calm_edit_nOpenParam; by apply HE |].
    intros [F|]; [| apply calm_ret].
    apply calm_bind; [apply calm_lift | intros ?; apply calm_ret].
Qed.

(** X10: the class of the forms follows the number of files selected:
    with more than one file every form shown in a run of
    exec_images_open_dialog is an nOpenParam titled "Open Raw Images"
    (through the catalogue), with one file it is an OpenParam titled
    "Open Raw Image". *)
Theorem form_class_by_count parent basedir app_name to_grayscale dtype
    (w : World Env) filenames sel s v :
  getopenfilenames parent (tr "Open") basedir (get_filters "load" dtype None)
    (streams (hushed w)) (env w) = (Ok (filenames, sel), s, v) →
  let run :=
    exec_images_open_dialog parent basedir app_name to_grayscale dtype w in
  let t := drop (S (length (trace w))) (trace (snd run)) in
  ∀ c title r,
    (c, title, r) ∈ forms_shown t →
    if (1 <? length filenames)%nat
    then c = nOpenParamForm ∧ title = tr "Open Raw Images"
    else c = OpenParamForm ∧ title = tr "Open Raw Image".
Proof.
  intros Hd run t c title r Hin.
  destruct (opens_trace_after_dialog parent basedir app_name to_grayscale
              dtype w filenames sel s v Hd)
    as (w1 & r0 & w2 & Hv & Hall & Hrun & Hdrop).
  subst t run. rewrite Hrun in Hin. simpl snd in Hin.
  set (P := λ ev : Event,
         ∀ c' title' r', ev = EEdit c' title' r' →
           if (1 <? length filenames)%nat
           then c' = nOpenParamForm ∧ title' = tr "Open Raw Images"
           else c' = OpenParamForm ∧ title' = tr "Open Raw Image").
  assert (calm (Env := Env) P
            (read_all parent app_name to_grayscale filenames)) as Hcalm.
  { unfold read_all. apply calm_bind.
    - apply calm_prepare_kind; [by intros ? ? ? ? ? [=] |].
      intros Hmany r1 c' title' r' [= <- <- <-].
      apply Nat.ltb_lt in Hmany. by rewrite Hmany.
    - intros [[RAW st]|]; [| apply calm_ret].
      apply calm_read_loop_kind; try (by intros; intros ? ? ? [=]).
      intros r1 c' title' r' [= <- <- <-].
      by destruct (1 <? length filenames)%nat. }
  destruct (Hcalm _ _ _ Hall) as (_ & t & Ht & HP).
  rewrite (Hdrop _ Ht) in Hin. unfold forms_shown in Hin.
  apply list_elem_of_omap in Hin as (o & Ho & Hpick).
  rewrite Forall_forall in HP. destruct (HP _ Ho) as [_ HPo].
  destruct (call o) eqn:Eo; try discriminate Hpick.
  injection Hpick as <- <- <-. by eapply HPo.
Qed.

(** The probe made by lines 159-167. *)
Lemma prepare_probe filenames (w w1 : World Env) r :
  prepare filenames w = (r, w1) →
  ∃ t, trace w1 = trace w ++ t
       ∧ probes t
         = match filenames with
           | [] => []
           | first :: _ =>
               if is_raw_ext (snd (splitext first))
               then [(fst (splitext first) +:+ ".inf",
                      isfile (fst (splitext first) +:+ ".inf") (env w))]
               else []
           end.
Proof.
  unfold prepare. destruct filenames as [|first more].
  { intros [= <- <-]. exists []. by rewrite app_nil_r. }
  destruct (splitext first) as [_base ext]. simpl fst. simpl snd.
  unfold bind at 1.
  destruct (is_raw_ext ext).
  - unfold bind at 1. unfold call_isfile, ret at 1, record.
    destruct (isfile (_base +:+ ".inf") (env w)) eqn:Hfile.
    + intros [= <- <-]. eexists. split; [reflexivity |]. done.
    + destruct (1 <? length (first :: more))%nat.
      * unfold bind, call_edit_nOpenParam, record, lift, ret.
        cbn [env streams trace].
        destruct (edit_nOpenParam (tr "Open Raw Images") (env w))
          as [[F|] v]; cbv beta iota.
        -- destruct (raw_params_spec F) as (d & ps & _ & Hps & _).
           rewrite Hps. intros [= <- <-]. eexists.
           split; [by rewrite <- app_assoc |]. done.
        -- intros [= <- <-]. eexists.
           split; [by rewrite <- app_assoc |]. done.
      * intros [= <- <-]. eexists. split; [reflexivity |]. done.
  - intros [= <- <-]. exists []. by rewrite app_nil_r.
Qed.

(** X11: a run of exec_images_open_dialog probes the file system at
    most once: only when the first selected filename has one of the
    four raw extensions, and then for the path made of that filename
    without its extension and ".inf"; the other selected files are
    never probed. *)
Theorem probes_first_file_once parent basedir app_name to_grayscale dtype
    (w : World Env) filenames sel s v :
  getopenfilenames parent (tr "Open") basedir (get_filters "load" dtype None)
    (streams (hushed w)) (env w) = (Ok (filenames, sel), s, v) →
  let run :=
    exec_images_open_dialog parent basedir app_name to_grayscale dtype w in
  probes (drop (S (length (trace w))) (trace (snd run)))
  = match filenames with
    | [] => []
    | first :: _ =>
        if is_raw_ext (snd (splitext first))
        then [(fst (splitext first) +:+ ".inf",
               isfile (fst (splitext first) +:+ ".inf") v)]
        else []
    end.
Proof.
  intros Hd run.
  destruct (opens_trace_after_dialog parent basedir app_name to_grayscale
              dtype w filenames sel s v Hd)
    as (w1 & r0 & w2 & Hv & Hall & Hrun & Hdrop).
  subst run. rewrite Hrun. simpl snd. rewrite <- Hv.
  revert Hall. unfold read_all, bind.
  destruct (prepare filenames w1) as [rp wp] eqn:Hp.
  destruct (prepare_probe _ _ _ _ Hp) as (tp & Htp & Hprobe).
  assert (∀ m : IO unit,
            calm (λ ev, match ev with EIsFile _ _ => False | _ => True end) m →
            m wp = (r0, w2) →
            probes (drop (S (length (trace w))) (trace w2)) = probes tp)
    as Hrest.
  { intros m Hm Hrun'. destruct (Hm _ _ _ Hrun') as (_ & t & Ht & HP).
    rewrite (Hdrop (tp ++ t)) by (by rewrite Ht, Htp, <- app_assoc).
    rewrite probes_app.
    assert (probes t = []) as ->.
    { eapply omap_none; [| exact HP]. intros o [_ Ho]. simpl in *.
      by destruct (call o). }
    by rewrite app_nil_r. }
  destruct rp as [[[RAW st]|]|e].
  - intros Hloop. rewrite <- Hprobe. eapply Hrest; [| exact Hloop].
    by apply calm_read_loop.
  - intros Hret. rewrite <- Hprobe. eapply Hrest; [| exact Hret].
    apply calm_ret.
  - intros Hret. rewrite <- Hprobe.
    eapply (Hrest (raise e)); [apply calm_raise | exact Hret].
Qed.

(** ** Further facts: One Parameter for all *)

Lemma shown_probe (probe : list Obs) s :
  (probe = [] ∨ ∃ path b, probe = [mkObs s (EIsFile path b)]) →
  forms_shown probe = [] ∧ reads probe = [].
Proof. by intros [-> | (path & b & ->)]. Qed.

Lemma forms_shown_plain t : plain t → forms_shown t = [].
Proof.
  intros Hp. eapply omap_none; [| exact Hp]. intros o. simpl.
  by destruct (call o).
Qed.

Lemma forms_shown_aftermath t : aftermath t → forms_shown t = [].
Proof.
  intros Hp. eapply omap_none; [| exact Hp]. intros o. simpl.
  by destruct (call o).
Qed.

(** Once the dictionary is filled and [one4all] is set, the loop shows
    no form and reads every file with that dictionary. *)
Lemma read_loop_settled parent app_name count tg rest :
  ∀ st (w w2 : World Env) r,
    asks true st = false →
    read_loop parent app_name count true tg st rest w = (r, w2) →
    ∃ t, trace w2 = trace w ++ t
         ∧ forms_shown t = []
         ∧ Forall (λ o, ∀ f g ps res, call o = EImread f g ps res →
                        ps = Some (params st)) t.
Proof.
  induction rest as [|f rest IH]; intros st w w2 r Ha Hrun.
  - injection Hrun as <- <-. exists []. rewrite app_nil_r.
    split_and!; [done | done | constructor].
  - destruct (read_loop_cons _ _ _ _ _ _ _ _ _ _ _ Hrun)
      as (r1 & w1 & Hone & Hnext).
    destruct (read_one_cases _ _ _ _ _ _ _ _ Hone)
      as [_ [Hc | [[Hn _] | [Hn _]]]]; [| congruence..].
    destruct Hc as (_ & res & Ht1 & ->).
    destruct res as [d|e]; simpl in Hnext.
    + destruct (IH _ _ _ _ Ha Hnext) as (t & Ht & Hnof & Hreads).
      simpl in Ht. eexists.
      split; [rewrite Ht, Ht1, <- !app_assoc; done |].
      split; [simpl; unfold forms_shown in *; simpl; exact Hnof |].
      constructor; [by intros ? ? ? ? [= _ _ <- _] |].
      constructor; [by intros ? ? ? ? [=] | done].
    + destruct (failed_turn_trace _ _ _ _ _ _ _ Hnext) as (th & Ht & Hth).
      eexists. split; [rewrite Ht, Ht1, <- !app_assoc; done |].
      split.
      * change (forms_shown ([mkObs (streams w)
                  (EImread f tg (Some (params st)) (Raise e))] ++ th) = []).
        by rewrite forms_shown_app, (forms_shown_aftermath _ Hth).
      * constructor; [by intros ? ? ? ? [= _ _ <- _] |].
        eapply Forall_impl; [exact Hth |]. intros o. simpl.
        destruct (call o); done.
Qed.

(** A run over several files whose first form was accepted: the probe,
    that form, and then the loop, started with the dictionary and the
    [one4all] of the form. *)
Lemma read_all_first_form parent app_name tg filenames (w w2 : World Env) r
    t c title (F : nOpenParam) :
  (1 < length filenames)%nat →
  read_all parent app_name tg filenames w = (r, w2) →
  trace w2 = trace w ++ t →
  head (forms_shown t) = Some (c, title, Some F) →
  ∃ probe st w1 t_loop,
    reads probe = [] ∧ forms_shown probe = []
    ∧ t = probe ++ mkObs (streams w) (EEdit c title (Some F)) :: t_loop
    ∧ raw_params F = Ok (params st)
    ∧ one4all st = p_one4all F
    ∧ read_loop parent app_name (length filenames) true tg st filenames w1
      = (r, w2)
    ∧ trace w2 = trace w1 ++ t_loop.
Proof.
  intros Hmany Hrun Ht Hhead. revert Hrun. unfold read_all, bind.
  destruct (prepare filenames w) as [rp w1] eqn:Hp.
  destruct (prepare_cases _ _ _ _ Hp) as (Hs1 & probe & Hprobe & Hc).
  destruct (shown_probe _ _ Hprobe) as [Hfp Hrp].
  destruct Hc as [(Ht1 & -> & Hone) | [Hc | Hc]].
  - destruct (raw_decision filenames (env w)) eqn:Hraw.
    { specialize (Hone eq_refl). lia. }
    intros Hloop.
    destruct (read_loop_plain _ _ _ _ _ (mkLocals ∅ false) _ _ _ eq_refl
                Hloop) as (tl & Htl & Hpl).
    rewrite Htl, Ht1, <- app_assoc in Ht. apply app_inv_head in Ht.
    subst t. rewrite forms_shown_app, Hfp, (forms_shown_plain _ Hpl) in Hhead.
    discriminate Hhead.
  - destruct Hc as (_ & _ & title1 & Ht1 & ->). intros [= <- <-].
    rewrite Ht1 in Ht. apply app_inv_head in Ht. subst t.
    rewrite forms_shown_app, Hfp in Hhead. discriminate Hhead.
  - destruct Hc as (_ & _ & title1 & F1 & st & Ht1 & HF & Hone & ->).
    intros Hloop.
    destruct (read_loop_served _ _ _ _ _ _ _ _ _ _ Hloop) as (tl & Htl & _).
    rewrite Htl, Ht1, <- !app_assoc in Ht. apply app_inv_head in Ht.
    subst t. rewrite forms_shown_app, Hfp in Hhead.
    injection Hhead as <- <- <-.
    exists probe, st, w1, tl. split_and!; done.
Qed.

(** X8: One Parameter for all.  With more than one file selected, when
    the first form shown in a run of exec_images_open_dialog is accepted
    with one4all ticked, no other form is shown and every file is read
    with the dictionary built from that form. *)
Theorem ticked_form_serves_all parent basedir app_name to_grayscale dtype
    (w : World Env) filenames sel s v c title (F : nOpenParam) :
  getopenfilenames parent (tr "Open") basedir (get_filters "load" dtype None)
    (streams (hushed w)) (env w) = (Ok (filenames, sel), s, v) →
  (1 < length filenames)%nat →
  let run :=
    exec_images_open_dialog parent basedir app_name to_grayscale dtype w in
  let t := drop (S (length (trace w))) (trace (snd run)) in
  head (forms_shown t) = Some (c, title, Some F) →
  p_one4all F = true →
  forms_shown t = [(c, title, Some F)]
  ∧ ∃ m, raw_params F = Ok m
         ∧ Forall (λ o, ∀ f g ps res, call o = EImread f g ps res →
                        ps = Some m) t.
Proof.
  intros Hd Hmany run t Hhead Hone.
  destruct (opens_trace_after_dialog parent basedir app_name to_grayscale
              dtype w filenames sel s v Hd)
    as (w1 & r0 & w2 & Hv & Hall & Hrun & Hdrop).
  subst t run. rewrite Hrun in Hhead |- *. simpl snd in *.
  destruct (calm_read_all (λ _, True) parent app_name to_grayscale filenames
              (λ _ _, I) _ _ _ Hall) as (_ & t & Ht & _).
  rewrite (Hdrop _ Ht) in Hhead |- *.
  destruct (read_all_first_form _ _ _ _ _ _ _ _ _ _ _ Hmany Hall Ht Hhead)
    as (probe & st & wl & tl & Hrp & Hfp & -> & HF & Hst & Hloop & Htl).
  assert (asks true st = false) as Ha.
  { unfold asks. rewrite Hst, Hone. simpl. rewrite orb_false_r.
    apply bool_decide_eq_false_2.
    destruct (raw_params_spec F) as (d & ps & _ & Hps & _ & _ & Hne).
    congruence. }
  destruct (read_loop_settled _ _ _ _ _ _ _ _ _ Ha Hloop)
    as (tl' & Htl' & Hnof & Hreads).
  rewrite Htl' in Htl. apply app_inv_head in Htl. subst tl'.
  split.
  - rewrite forms_shown_app, Hfp. simpl.
    change (forms_shown (mkObs (streams w1) (EEdit c title (Some F)) :: tl))
      with ((c, title, Some F) :: forms_shown tl).
    by rewrite Hnof.
  - exists (params st). split; [done |]. apply Forall_app. split.
    + clear -Hrp. induction probe as [|o probe IH]; [constructor |].
      change (o :: probe) with ([o] ++ probe) in Hrp.
      rewrite reads_app in Hrp. apply app_eq_nil in Hrp as [Ho Hrest].
      constructor; [| by apply IH].
      intros f g ps res Eo. unfold reads in Ho. simpl in Ho.
      by rewrite Eo in Ho.
    + constructor; [by intros ? ? ? ? [=] | done].
Qed.

(** X9: with more than one file selected, when the first form shown in
    a run of exec_images_open_dialog is accepted with one4all unticked,
    the call that follows it is again a form: the first file is asked
    about a second time before anything is read. *)
Theorem unticked_form_is_followed_by_form parent basedir app_name
    to_grayscale dtype (w : World Env) filenames sel s v c title
    (F : nOpenParam) :
  getopenfilenames parent (tr "Open") basedir (get_filters "load" dtype None)
    (streams (hushed w)) (env w) = (Ok (filenames, sel), s, v) →
  (1 < length filenames)%nat →
  let run :=
    exec_images_open_dialog parent basedir app_name to_grayscale dtype w in
  let t := drop (S (length (trace w))) (trace (snd run)) in
  head (forms_shown t) = Some (c, title, Some F) →
  p_one4all F = false →
  ∃ t0 o1 o2 t2,
    t = t0 ++ o1 :: o2 :: t2
    ∧ reads t0 = []
    ∧ call o1 = EEdit c title (Some F)
    ∧ is_edit (call o2) = true.
Proof.
  intros Hd Hmany run t Hhead Hone.
  destruct (opens_trace_after_dialog parent basedir app_name to_grayscale
              dtype w filenames sel s v Hd)
    as (w1 & r0 & w2 & Hv & Hall & Hrun & Hdrop).
  subst t run. rewrite Hrun in Hhead |- *. simpl snd in *.
  destruct (calm_read_all (λ _, True) parent app_name to_grayscale filenames
              (λ _ _, I) _ _ _ Hall) as (_ & t & Ht & _).
  rewrite (Hdrop _ Ht) in Hhead |- *.
  destruct (read_all_first_form _ _ _ _ _ _ _ _ _ _ _ Hmany Hall Ht Hhead)
    as (probe & st & wl & tl & Hrp & Hfp & -> & HF & Hst & Hloop & Htl).
  assert (asks true st = true) as Ha.
  { unfold asks. rewrite Hst, Hone. simpl. apply orb_true_r. }
  destruct filenames as [|f more]; [simpl in Hmany; lia |].
  destruct (read_loop_asks_first _ _ _ _ _ _ _ _ _ _ _ Ha Hloop)
    as (o2 & t2 & Ht2 & Ho2).
  rewrite Ht2 in Htl. apply app_inv_head in Htl. subst tl.
  by exists probe, (mkObs (streams w1) (EEdit c title (Some F))), o2, t2.
Qed.

(** X14: the dictionary built from an accepted form has exactly the
    keys "offset" and "dtype", and its dtype is little-endian exactly
    when the endian_switch of the form differs from the host being
    big-endian: the switch left ticked gives the byte order of the
    host, unticked the opposite one. *)
Theorem raw_params_byte_order (F : OpenParam) :
  ∃ d ps,
    raw_params F = Ok ps
    ∧ dom ps = {["offset"; "dtype"]}
    ∧ ps !! "dtype" = Some (VDtype d)
    ∧ (byteorder d = LittleEndian ↔ p_endian_switch F = negb big_endian).
Proof.
  destruct (np_dtype_choice (p_dtype F)) as (d0 & Hd & Hord).
  unfold raw_params. rewrite Hd.
  exists (if negb (p_endian_switch F) then newbyteorder d0 else d0).
  eexists. split; [done |]. split; [| split].
  - rewrite !dom_insert_L, dom_empty_L. set_solver.
  - rewrite lookup_insert_ne by done. by rewrite lookup_insert_eq.
  - destruct d0 as [order k size]. simpl in Hord. subst order.
    unfold newbyteorder, native_order.
    destruct (p_endian_switch F), big_endian; simpl; split; congruence.
Qed.

(** ** Further facts: exceptions that are not caught *)

Lemma last_reads_cons x (l : list (string * Result ndarray)) f e :
  last (x :: l) = Some (f, Raise e) →
  (l = [] ∧ x = (f, Raise e)) ∨ last l = Some (f, Raise e).
Proof.
  rewrite last_cons. destruct (last l) eqn:El.
  - intros [= ->]. by right.
  - intros [= ->]. left. split; [| done]. by apply last_None.
Qed.

Lemma read_loop_interrupt parent app_name count RAW tg rest :
  ∀ st (w w2 : World Env) r,
    read_loop parent app_name count RAW tg st rest w = (r, w2) →
    ∃ t, trace w2 = trace w ++ t
         ∧ ∀ f e, last (reads t) = Some (f, Raise e) →
                  isinstance_Exception e = false →
                  r = Raise e ∧ unreported t.
Proof.
  induction rest as [|f rest IH]; intros st w w2 r Hrun.
  - injection Hrun as <- <-. exists []. by rewrite app_nil_r.
  - destruct (read_loop_cons _ _ _ _ _ _ _ _ _ _ _ Hrun)
      as (r1 & w1 & Hone & Hnext).
    destruct (read_one_cases _ _ _ _ _ _ _ _ Hone) as [_ [Hc | [Hc | Hc]]].
    + destruct Hc as (_ & res & Ht1 & ->).
      destruct res as [d|e0]; simpl in Hnext.
      * destruct (IH _ _ _ _ Hnext) as (t & Ht & Hint). simpl in Ht.
        eexists. split; [rewrite Ht, Ht1, <- !app_assoc; done |].
        intros f1 e Hlast He.
        apply last_reads_cons in Hlast as [[_ [=]] | Hlast].
        destruct (Hint _ _ Hlast He) as [-> Hun].
        split; [done |]. by repeat constructor.
      * destruct (isinstance_Exception e0) eqn:He0.
        -- destruct (failed_turn_trace parent app_name f e0 w1 w2 r)
             as (th & Ht & Hth); [by rewrite He0 |].
           eexists. split; [rewrite Ht, Ht1, <- !app_assoc; done |].
           intros f1 e Hlast He. exfalso. revert Hlast.
           change (last (reads ([mkObs (streams w)
                     (EImread f tg (Some (params st)) (Raise e0))] ++ th))
                   = Some (f1, Raise e) → False).
           rewrite reads_app.
           assert (reads th = []) as ->.
           { eapply omap_none; [| exact Hth]. intros o. simpl.
             by destruct (call o). }
           intros [= _ ->]. congruence.
        -- destruct Hnext as [-> ->]. eexists. split; [exact Ht1 |].
           intros f1 e [= <- <-] _. split; [done |]. by repeat constructor.
    + destruct Hc as (_ & c & title & Ht1 & ->). destruct Hnext as [_ ->].
      eexists. split; [exact Ht1 |]. by intros f1 e [=].
    + destruct Hc as (_ & c & title & F & st1 & res & Ht1 & _ & _ & ->).
      destruct res as [d|e0]; simpl in Hnext.
      * destruct (IH _ _ _ _ Hnext) as (t & Ht & Hint). simpl in Ht.
        eexists. split; [rewrite Ht, Ht1, <- !app_assoc; done |].
        intros f1 e Hlast He.
        apply last_reads_cons in Hlast as [[_ [=]] | Hlast].
        destruct (Hint _ _ Hlast He) as [-> Hun].
        split; [done |]. by repeat constructor.
      * destruct (isinstance_Exception e0) eqn:He0.
        -- destruct (failed_turn_trace parent app_name f e0 w1 w2 r)
             as (th & Ht & Hth); [by rewrite He0 |].
           eexists. split; [rewrite Ht, Ht1, <- !app_assoc; done |].
           intros f1 e Hlast He. exfalso. revert Hlast.
           change (last (reads ([mkObs (streams w) (EEdit c title (Some F));
                                 mkObs (streams w)
                                   (EImread f tg (Some (params st1))
                                      (Raise e0))] ++ th))
                   = Some (f1, Raise e) → False).
           rewrite reads_app.
           assert (reads th = []) as ->.
           { eapply omap_none; [| exact Hth]. intros o. simpl.
             by destruct (call o). }
           intros [= _ ->]. congruence.
        -- destruct Hnext as [-> ->]. eexists. split; [exact Ht1 |].
           intros f1 e [= <- <-] _. split; [done |]. by repeat constructor.
Qed.

(** X13: an exception raised by io.imread that is not an Exception
    (KeyboardInterrupt, SystemExit) is not caught by the loop of
    exec_images_open_dialog: the generator raises it, and neither a
    traceback is printed nor a message box shown in the run. *)
Theorem opens_interrupt_escapes parent basedir app_name to_grayscale dtype
    (w : World Env) filenames sel s v f e :
  getopenfilenames parent (tr "Open") basedir (get_filters "load" dtype None)
    (streams (hushed w)) (env w) = (Ok (filenames, sel), s, v) →
  let run :=
    exec_images_open_dialog parent basedir app_name to_grayscale dtype w in
  let t := drop (S (length (trace w))) (trace (snd run)) in
  last (reads t) = Some (f, Raise e) →
  isinstance_Exception e = false →
  fst run = Raise e ∧ unreported t.
Proof.
  intros Hd run t Hlast He.
  destruct (opens_trace_after_dialog parent basedir app_name to_grayscale
              dtype w filenames sel s v Hd)
    as (w1 & r0 & w2 & Hv & Hall & Hrun & Hdrop).
  subst t run. rewrite Hrun in Hlast |- *. simpl snd in *. simpl fst.
  revert Hall. unfold read_all, bind.
  destruct (prepare filenames w1) as [rp wp] eqn:Hp.
  destruct (prepare_cases _ _ _ _ Hp) as (Hs1 & probe & Hprobe & Hc).
  destruct (shown_probe _ _ Hprobe) as [_ Hrp].
  assert (unreported probe) as Hup.
  { destruct Hprobe as [-> | (path & b & ->)]; by repeat constructor. }
  assert (∀ RAW st pre,
            trace wp = trace w1 ++ pre → reads pre = [] → unreported pre →
            read_loop parent app_name (length filenames) RAW to_grayscale st
              filenames wp = (r0, w2) →
            r0 = Raise e ∧ unreported (drop (S (length (trace w))) (trace w2)))
    as Hloop.
  { intros RAW st pre Hpre Hnor Hunp Hl.
    destruct (read_loop_interrupt _ _ _ _ _ _ _ _ _ _ Hl) as (tl & Htl & Hint).
    rewrite (Hdrop (pre ++ tl)) in Hlast |- *
      by (by rewrite Htl, Hpre, <- app_assoc).
    rewrite reads_app, Hnor in Hlast. simpl in Hlast.
    destruct (Hint _ _ Hlast He) as [-> Hun].
    split; [done |]. by apply Forall_app. }
  destruct Hc as [(Ht1 & -> & _) | [Hc | Hc]].
  - by eapply Hloop.
  - destruct Hc as (_ & _ & title & Ht1 & ->). intros [= <- <-].
    rewrite (Hdrop _ Ht1), reads_app, Hrp in Hlast. discriminate Hlast.
  - destruct Hc as (_ & _ & title & F & st & Ht1 & _ & _ & ->).
    eapply Hloop; [exact Ht1 | |].
    + by rewrite reads_app, Hrp.
    + apply Forall_app. split; [done |]. by repeat constructor.
Qed.

End Further.

(** ** Further runs on the scripted host *)
Section FurtherRuns.
Import Script.

Lemma save_cancelled_is_silent_witness :
  fst (exec_image_save_dialog None byte_image None "" None
         (start (picking [] [] []))) = Ok None
  ∧ length (trace (snd (exec_image_save_dialog None byte_image None "" None
                          (start (picking [] [] []))))) = 1%nat.
Proof.
  destruct (save_cancelled_is_silent None byte_image None "" None
              (start (picking [] [] []))
              (snd (choose_save_file None "" (save_filters byte_image None)
                      console (hushed (start (picking [] [] [])))))
              "")
    as (Hrun & _ & _).
  - reflexivity.
  - rewrite Hrun. split; reflexivity.
Defined.

Lemma save_retries_without_basedir_witness :
  fst (exec_image_save_dialog None byte_image None "/home" None
         (start (mkDesk [Raise (mkExn TypeError "basedir");
                         Ok (["/tmp/scan.png"], "")] None [] [] [] [])))
  = Ok (Some "/tmp/scan.png")
  ∧ ∃ rest,
      rest
      = [mkObs console
           (EImwrite "/tmp/scan.png" byte_image
              (save_kwargs "/tmp/scan.png" None) (Ok tt))]
      ∧ length (trace (snd (exec_image_save_dialog None byte_image None
                              "/home" None
                              (start (mkDesk
                                        [Raise (mkExn TypeError "basedir");
                                         Ok (["/tmp/scan.png"], "")]
                                        None [] [] [] [])))))
        = S (S (length rest)).
Proof.
  destruct (save_retries_without_basedir None byte_image None "/home" None
              (start (mkDesk [Raise (mkExn TypeError "basedir");
                              Ok (["/tmp/scan.png"], "")] None [] [] [] []))
              (mkExn TypeError "basedir")
              (mkStreams (Some 0%nat) None (Some 2%nat))
              (mkDesk [Ok (["/tmp/scan.png"], "")] None [] [] [] []))
    as (rest & Ht & _ & _ & _ & _ & Hwritten).
  - reflexivity.
  - reflexivity.
  - destruct (Hwritten ltac:(discriminate) eq_refl
                (mkDesk [] None [] [] [] []) eq_refl) as [Hret Hrest].
    split; [exact Hret |]. exists rest. split; [exact Hrest |].
    rewrite Ht, Hrest. reflexivity.
Defined.

Lemma dialog_failure_leaves_streams_witness :
  sys_stdout
    (streams (snd (exec_image_open_dialog None "" None true None
                     (start (mkDesk [Raise (mkExn RuntimeError "no display")]
                               None [] [] [] [])))))
  = None.
Proof.
  destruct (dialog_failure_leaves_streams (Env := Desk)) as (_ & Hopen & _).
  rewrite (Hopen None "" None true None
             (start (mkDesk [Raise (mkExn RuntimeError "no display")]
                       None [] [] [] []))
             (mkExn RuntimeError "no display")
             (mkStreams (Some 0%nat) None (Some 2%nat))
             (mkDesk [] None [] [] [] []) eq_refl).
  reflexivity.
Defined.

Lemma save_direct_image_written_witness :
  fst (exec_image_save_dialog None byte_image None "" None
         (start (picking ["/tmp/scan.png"] [] [])))
  = Ok (Some "/tmp/scan.png").
Proof.
  rewrite (save_direct_image_written None byte_image None "" None
             (start (picking ["/tmp/scan.png"] [] []))
             (snd (choose_save_file None "" (save_filters byte_image None)
                     console
                     (hushed (start (picking ["/tmp/scan.png"] [] [])))))
             "/tmp/scan.png" "" (mkDesk [] None [] [] [] [])).
  - reflexivity.
  - reflexivity.
  - reflexivity.
  - discriminate.
  - reflexivity.
Defined.

Lemma streams_restored_once_answered_witness :
  streams (snd (exec_images_open_dialog (H := interrupted_host) None "" None
                  true None
                  (start (mkDesk [Ok (["a.png"], "")]
                            (Some (mkStreams None None None)) [] []
                            ["a.png"] []))))
  = console.
Proof.
  destruct (streams_restored_once_answered (H := interrupted_host))
    as (_ & _ & Hopens).
  exact (Hopens None "" None true None
           (start (mkDesk [Ok (["a.png"], "")]
                     (Some (mkStreams None None None)) [] [] ["a.png"] []))
           (["a.png"], "") (mkStreams None None None)
           (mkDesk [] (Some (mkStreams None None None)) [] [] ["a.png"] [])
           eq_refl).
Defined.

Lemma opens_empty_selection_is_silent_witness :
  exec_images_open_dialog None "" None true None (start (picking [] [] []))
  = (Ok tt,
     mkWorld console (mkDesk [] None [] [] [] [])
       [mkObs (mkStreams (Some 0%nat) None (Some 2%nat))
          (EGetOpenFileNames None "Open" ""
             "Images (*.png *.tif *.dcm *.raw)" (Ok ([], "")))]).
Proof.
  exact (opens_empty_selection_is_silent None "" None true None
           (start (picking [] [] [])) ""
           (mkStreams (Some 0%nat) None (Some 2%nat))
           (mkDesk [] None [] [] [] []) eq_refl).
Defined.

Lemma ticked_form_serves_all_witness :
  forms_shown
    (drop 1
       (trace (snd (exec_images_open_dialog None "" None true None
                      (start (picking ["a.raw"; "b.raw"]
                                [Some form_512] []))))))
  = [(nOpenParamForm, "Open Raw Images", Some form_512)].
Proof.
  destruct (ticked_form_serves_all None "" None true None
              (start (picking ["a.raw"; "b.raw"] [Some form_512] []))
              ["a.raw"; "b.raw"] ""
              (mkStreams (Some 0%nat) None (Some 2%nat))
              (mkDesk [] None [Some form_512] [] [] [])
              nOpenParamForm "Open Raw Images" form_512)
    as [Hone _].
  - reflexivity.
  - simpl. lia.
  - reflexivity.
  - reflexivity.
  - exact Hone.
Defined.

Lemma unticked_form_is_followed_by_form_witness :
  ∃ t0 o1 o2 t2,
    drop 1
      (trace (snd (exec_images_open_dialog None "" None true None
                     (start (picking ["a.raw"; "b.raw"]
                               [Some form_512_each; Some form_auto;
                                Some form_512] [])))))
    = t0 ++ o1 :: o2 :: t2
    ∧ reads t0 = []
    ∧ call o1 = EEdit nOpenParamForm "Open Raw Images" (Some form_512_each)
    ∧ is_edit (call o2) = true.
Proof.
  apply (unticked_form_is_followed_by_form None "" None true None
           (start (picking ["a.raw"; "b.raw"]
                     [Some form_512_each; Some form_auto; Some form_512] []))
           ["a.raw"; "b.raw"] ""
           (mkStreams (Some 0%nat) None (Some 2%nat))
           (mkDesk [] None
              [Some form_512_each; Some form_auto; Some form_512] [] [] [])
           nOpenParamForm "Open Raw Images" form_512_each).
  - reflexivity.
  - simpl. lia.
  - reflexivity.
  - reflexivity.
Defined.

Lemma form_class_by_count_witness :
  (OpenParamForm, "Open Raw Image", Some form_auto)
    ∈ forms_shown
        (drop 1
           (trace (snd (exec_images_open_dialog None "" None true None
                          (start (picking ["a.raw"] [Some form_auto] []))))))
  ∧ OpenParamForm = OpenParamForm
  ∧ "Open Raw Image" = tr (Host := desk_host) "Open Raw Image".
Proof.
  assert ((OpenParamForm, "Open Raw Image", Some form_auto)
            ∈ forms_shown
                (drop 1
                   (trace (snd (exec_images_open_dialog None "" None true
                                  None
                                  (start (picking ["a.raw"]
                                            [Some form_auto] [])))))))
    as Hin by apply list_elem_of_here.
  split; [exact Hin |].
  exact (form_class_by_count None "" None true None
           (start (picking ["a.raw"] [Some form_auto] []))
           ["a.raw"] "" (mkStreams (Some 0%nat) None (Some 2%nat))
           (mkDesk [] None [Some form_auto] [] [] []) eq_refl
           OpenParamForm "Open Raw Image" (Some form_auto) Hin).
Defined.

Lemma probes_first_file_once_witness :
  probes
    (drop 1
       (trace (snd (exec_images_open_dialog None "" None true None
                      (start (picking ["a.raw"; "b.raw"]
                                [Some form_512] []))))))
  = [("a.inf", false)].
Proof.
  exact (probes_first_file_once None "" None true None
           (start (picking ["a.raw"; "b.raw"] [Some form_512] []))
           ["a.raw"; "b.raw"] ""
           (mkStreams (Some 0%nat) None (Some 2%nat))
           (mkDesk [] None [Some form_512] [] [] []) eq_refl).
Defined.

Lemma save_filename_only_after_write_witness :
  ∃ s,
    last (trace (snd (exec_image_save_dialog None byte_image None "" None
                        (start (picking ["/tmp/scan.png"] [] [])))))
    = Some (mkObs s
              (EImwrite "/tmp/scan.png" byte_image
                 (save_kwargs "/tmp/scan.png" None) (Ok tt))).
Proof.
  apply (save_filename_only_after_write None byte_image None "" None
           (start (picking ["/tmp/scan.png"] [] []))).
  reflexivity.
Defined.

Lemma opens_interrupt_escapes_witness :
  fst (exec_images_open_dialog (H := interrupted_host) None "" None true None
         (start (picking ["a.png"; "b.png"; "c.png"] [] ["b.png"])))
  = Raise (mkExn KeyboardInterrupt "")
  ∧ unreported
      (drop 1
         (trace (snd (exec_images_open_dialog (H := interrupted_host) None ""
                        None true None
                        (start (picking ["a.png"; "b.png"; "c.png"] []
                                  ["b.png"])))))).
Proof.
  apply (opens_interrupt_escapes (H := interrupted_host) None "" None true
           None (start (picking ["a.png"; "b.png"; "c.png"] [] ["b.png"]))
           ["a.png"; "b.png"; "c.png"] ""
           (mkStreams (Some 0%nat) None (Some 2%nat))
           (mkDesk [] None [] [] ["b.png"] []) "b.png").
  - reflexivity.
  - reflexivity.
  - reflexivity.
Defined.

End FurtherRuns.
